(** * Resource allocation manager of OpenMDAO (openmdao/main/resource.py)

    A shallow embedding of [ResourceAllocationManager], [ResourceAllocator]
    and [LocalAllocator], with the properties of best-fit selection, of the
    allocation / deployment-retry loop, of handle naming, of [release] and of
    the local allocator's rating. *)

From Stdlib Require Import ZArith QArith List String Ascii Bool Lia.
From Stdlib Require Import DecimalString DecimalZ FinFun.
Import ListNotations.

Local Open Scope string_scope.
Local Open Scope Z_scope.

(** ** The fragment of Python 2 the module relies on *)

Module Py.

(** Exceptions.  The last two derive from [BaseException] only, so that an
    [except Exception] clause lets them through. *)
Inductive exn : Type :=
| NameError (name : string)
| AttributeError
| TypeError
| NotImplementedError
| ImportError
| OtherError (cls : string)
| KeyboardInterrupt
| SystemExit.

Definition is_Exception (e : exn) : bool :=
  match e with
  | KeyboardInterrupt | SystemExit => false
  | _ => true
  end.

(** What a call does: it returns, it raises, or it has not finished (a
    loop unrolled with fuel that is still running when the fuel is spent, a
    collaborator that does not come back). *)
Inductive outcome (A : Type) : Type :=
| Return (a : A)
| Raise (e : exn)
| OutOfFuel.
Arguments Return {A} a.
Arguments Raise {A} e.
Arguments OutOfFuel {A}.

(** [pkg_resources.Distribution], as far as [as_requirement] reads it. *)
Record Distribution : Type := { project_name : string; version : string }.

(** '%s==%s' % (project_name, version) *)
Definition as_requirement (d : Distribution) : string :=
  project_name d ++ "==" ++ version d.

(** Constraint values of a resource description. *)
Inductive value : Type :=
| VBool (b : bool)
| VInt (n : Z)
| VStr (s : string)
| VStrs (l : list string)
| VDists (l : list Distribution).

(** [bool(value)] *)
Definition truthy (v : value) : bool :=
  match v with
  | VBool b => b
  | VInt n => negb (n =? 0)
  | VStr s => negb (String.eqb s "")
  | VStrs l => match l with [] => false | _ => true end
  | VDists l => match l with [] => false | _ => true end
  end.

(** [value > n] for an int [n]: numbers compare by value, and CPython 2
    orders every non-numeric object after every number. *)
Definition gt_int (v : value) (n : Z) : bool :=
  match v with
  | VBool b => Z.b2z b >? n
  | VInt m => m >? n
  | VStr _ | VStrs _ | VDists _ => true
  end.

(** [s != value] for a str [s]. *)
Definition ne_str (s : string) (v : value) : bool :=
  match v with
  | VStr t => negb (String.eqb s t)
  | _ => true
  end.

(** [sorted] on a list of str (byte-wise lexicographic order). *)
Fixpoint insert_sorted (x : string) (l : list string) : list string :=
  match l with
  | [] => [x]
  | y :: l' => if String.leb x y then x :: l else y :: insert_sorted x l'
  end.

Definition sorted (l : list string) : list string :=
  fold_right insert_sorted [] l.

(** Iterating over a str yields its characters as one-character strs. *)
Fixpoint chars (s : string) : list string :=
  match s with
  | EmptyString => []
  | String c s' => String c EmptyString :: chars s'
  end.

(** '%d' % n *)
Definition percent_d (n : Z) : string :=
  NilEmpty.string_of_int (Z.to_int n).

(** A module's global namespace, as the list of the names bound in it. *)
Definition bound (globals : list string) (name : string) : bool :=
  existsb (String.eqb name) globals.

(** [list.insert(index, x)]: [None] where Python raises OverflowError
    because the index does not fit the machine's index type, whose largest
    value is [maxsize] ([sys.maxsize]); otherwise a negative index counts
    from the end, and an index beyond either end is clamped to that end. *)
Definition list_insert {A : Type} (maxsize : Z) (l : list A) (index : Z)
  (x : A) : option (list A) :=
  if (index <? - maxsize - 1) || (maxsize <? index) then None
  else
    let n := Z.of_nat (List.length l) in
    let i := if index <? 0 then Z.max 0 (index + n) else Z.min index n in
    Some (firstn (Z.to_nat i) l ++ x :: skipn (Z.to_nat i) l)%list.

End Py.
Import Py.

(** ** Scores and criteria *)

(** Values a criteria dict holds: a constraint value of the request, the
    names an availability check reports, the load averages, a number. *)
Inductive cvalue : Type :=
| CValue (v : value)
| CNames (l : list string)
| CLoad (l : Q * Q * Q)
| CNum (q : Q).

(** A dict with str keys, as its items. *)
Definition criteria : Type := list (string * cvalue).

(** A resource description: the items of the dict in the order in which
    [resource_desc.items()] yields them. *)
Definition resource_desc : Type := list (string * value).

(** What [rate_resource] returns: (score, criteria); criteria may be None. *)
Definition rating : Type := Z * option criteria.

(** ** LocalAllocator *)

(** What the process finds on the host it runs on. *)
Record Host : Type := {
  sys_version : string;
  (** [sys.maxsize], the largest index of a list. *)
  sys_maxsize : Z;
  (** [os.getloadavg()]; [None] where [os] has no such attribute. *)
  getloadavg : option (Q * Q * Q);
  (** [__import__(module)]: [None] when it returns, [Some e] when it raises
      [e] (ImportError for a module that is not found, ValueError for the
      empty name, whatever the code of the module raises). *)
  import_module : string -> option exn;
  (** [openmdao.util.eggloader.check_requirements]: the requirements that
      are not available. *)
  check_requirements : list string -> list string;
  (** [for handler in logging._handlerList: handler.flush()]: [Some e] when
      that raises [e]. *)
  flush_handlers : option exn
}.

Record LocalAllocator : Type := {
  total_cpus : Z;
  max_load : Q
}.

(** LocalAllocator(total_cpus=1, max_load=2) *)
Definition LocalAllocator_default : LocalAllocator :=
  {| total_cpus := 1; max_load := 2 # 1 |}.

Definition check_required_distributions (host : Host) (resource_value : value)
  : outcome rating :=
  let check (required : list string) : outcome rating :=
    let not_avail := check_requirements host (sorted required) in
    match not_avail with
    | _ :: _ => Return (-2, Some [("required_distributions", CNames not_avail)])
    | [] => Return (0, None)
    end in
  match resource_value with
  | VDists ds => check (map as_requirement ds)
  | VStrs [] | VStr EmptyString => check []
  | VStrs (_ :: _) | VStr (String _ _) => Raise AttributeError
  | VBool _ | VInt _ => Raise TypeError
  end.

(** The loop of [check_orphan_modules] over the sorted modules: an
    ImportError adds the module to [not_found], any other exception leaves
    the loop and the function. *)
Fixpoint import_modules (host : Host) (modules not_found : list string)
  : outcome (list string) :=
  match modules with
  | [] => Return not_found
  | module :: rest =>
      match import_module host module with
      | None => import_modules host rest not_found
      | Some ImportError =>
          import_modules host rest (not_found ++ [module])%list
      | Some e => Raise e
      end
  end.

Definition check_orphan_modules (host : Host) (resource_value : value)
  : outcome rating :=
  let check (modules : list string) : outcome rating :=
    match import_modules host modules [] with
    | Return not_found =>
        if (0 <? Z.of_nat (List.length not_found))
        then Return (-2, Some [("orphan_modules", CNames not_found)])
        else Return (0, None)
    | Raise e => Raise e
    | OutOfFuel => OutOfFuel
    end in
  match resource_value with
  | VStrs l => check (sorted l)
  | VStr s => check (sorted (chars s))
  | VDists [] => check []
  | VDists (_ :: _) => Raise TypeError
  | VBool _ | VInt _ => Raise TypeError
  end.

(** The body of the loop over the items of the request: [Some r] when the
    item makes [rate_resource] return (or raise), [None] when the loop goes
    on to the next item. *)
Definition rate_item (self : LocalAllocator) (host : Host)
  (item : string * value) : option (outcome rating) :=
  let (key, value) := item in
  if String.eqb key "localhost" then
    if negb (truthy value) then Some (Return (-2, Some [(key, CValue value)]))
    else None
  else if String.eqb key "n_cpus" then
    if gt_int value (total_cpus self)
    then Some (Return (-2, Some [(key, CValue value)]))
    else None
  else if String.eqb key "required_distributions" then
    match check_required_distributions host value with
    | Return (score, info) =>
        if score <? 0 then Some (Return (score, info)) else None
    | Raise e => Some (Raise e)
    | OutOfFuel => Some OutOfFuel
    end
  else if String.eqb key "orphan_modules" then
    match check_orphan_modules host value with
    | Return (score, info) =>
        if score <? 0 then Some (Return (score, info)) else None
    | Raise e => Some (Raise e)
    | OutOfFuel => Some OutOfFuel
    end
  else if String.eqb key "python_version" then
    if ne_str (substring 0 3 (sys_version host)) value
    then Some (Return (-2, Some [(key, CValue value)]))
    else None
  else Some (Return (-2, Some [(key, CValue value)])).

Fixpoint rate_items (self : LocalAllocator) (host : Host)
  (items : resource_desc) : option (outcome rating) :=
  match items with
  | [] => None
  | item :: rest =>
      match rate_item self host item with
      | Some r => Some r
      | None => rate_items self host rest
      end
  end.

(** [loadavgs[0] < max_load] *)
Definition load_below (loadavgs : Q * Q * Q) (limit : Q) : bool :=
  let '(one_minute, _, _) := loadavgs in negb (Qle_bool limit one_minute).

Definition check_system_load (self : LocalAllocator) (host : Host)
  : outcome rating :=
  match getloadavg host with
  | None => Return (0, Some [])
  | Some loadavgs =>
      let info := [("loadavgs", CLoad loadavgs);
                   ("max_load", CNum (max_load self))] in
      if load_below loadavgs (max_load self)
      then Return (0, Some info)
      else Return (-1, Some info)
  end.

(** LocalAllocator.rate_resource *)
Definition LocalAllocator_rate_resource (self : LocalAllocator) (host : Host)
  (desc : resource_desc) : outcome rating :=
  match rate_items self host desc with
  | Some r => r
  | None => check_system_load self host
  end.

(** ClusterAllocator.rate_resource: a stub. *)
Definition ClusterAllocator_rate_resource (desc : resource_desc)
  : outcome rating :=
  Return (0, None).

(** The names bound in the module's namespace when [_allocate] runs: the
    imports at the head of the file and the classes the file defines (a name
    that is not found there is looked up among the builtins, which have no
    [time]). *)
Definition module_globals : list string :=
  ["logging"; "os"; "platform"; "sys"; "threading"; "traceback";
   "mp_distributing"; "ObjServerFactory"; "ObjServer"; "check_requirements";
   "ResourceAllocationManager"; "ResourceAllocator"; "LocalAllocator";
   "ClusterAllocator"].

(** ** ResourceAllocationManager *)

Section Manager.

(** Everything outside the manager that its calls read or change: the hosts
    and their load, the server processes, the log handlers. *)
Variable World : Type.

(** A deployed server (proxy). *)
Record Server : Type := {
  get_name : string;
  get_pid : Z;
  get_host : string;
  (** [cleanup()]: [Some e] when it raises [e]. *)
  cleanup : World -> option exn * World
}.

(** The dict with the keys 'name', 'pid' and 'host'. *)
Record server_info : Type := {
  info_name : string;
  info_pid : Z;
  info_host : string
}.

(** The interface of an allocator: its name and its two methods. *)
Record Allocator : Type := {
  name : string;
  rate_resource : resource_desc -> World -> outcome rating * World;
  deploy : string -> resource_desc -> World -> outcome (option Server) * World
}.

(** ResourceAllocator, the base class: [rate_resource] is abstract, and
    [deploy], declared with the request as its only argument, raises
    TypeError when the manager calls it with a name and the request. *)
Definition ResourceAllocator (name : string) : Allocator :=
  {| name := name;
     rate_resource := fun _ w => (Raise NotImplementedError, w);
     deploy := fun _ _ w => (Raise TypeError, w) |}.

(** [time.sleep(1)]: a second goes by. *)
Variable elapse : World -> World.
(** The host the process runs on, as the local allocator probes it. *)
Variable host : World -> Host.
(** [ObjServerFactory.create(typname='', name=name)] *)
Variable create : string -> World -> outcome (option Server) * World.
(** Emitting a record on the 'RAM' logger: [Some e] when that raises [e]. *)
Variable emit : string -> World -> option exn * World.
(** [traceback.format_exc()] for the exception being handled. *)
Variable format_exc : exn -> string.

(** LocalAllocator as an allocator of the manager. *)
Definition local_allocator (self : LocalAllocator) : Allocator :=
  {| name := "LocalAllocator";
     rate_resource := fun desc w =>
       (LocalAllocator_rate_resource self (host w) desc, w);
     deploy := fun name desc w => create name w |}.

(** The calls the manager makes on its collaborators, and what it writes
    at warning level or above (debug messages are left out). *)
Inductive event : Type :=
| Call_get_scores
| Call_rate_resource (allocator : string)
| Call_deploy (allocator : string) (name : string)
| Call_sleep
| Log_warning (message : string)
| Log_error (message : string)
| Print_stderr (text : string).

Record State : Type := { world : World; trace : list event }.

Definition record (e : event) (st : State) : State :=
  {| world := world st; trace := (trace st ++ [e])%list |}.

Definition set_world (w : World) (st : State) : State :=
  {| world := w; trace := trace st |}.

Record RAM : Type := {
  _allocations : Z;
  _allocators : list Allocator;
  _alloc_index : Z
}.

Definition set_allocations (self : RAM) (n : Z) : RAM :=
  {| _allocations := n;
     _allocators := _allocators self;
     _alloc_index := _alloc_index self |}.

Definition set_allocators (self : RAM) (l : list Allocator) : RAM :=
  {| _allocations := _allocations self;
     _allocators := l;
     _alloc_index := _alloc_index self |}.

(** ResourceAllocationManager.__init__ *)
Definition RAM_init : RAM :=
  {| _allocations := 0;
     _allocators := [local_allocator LocalAllocator_default];
     _alloc_index := 0 |}.

(** The running best of [_get_scores]. *)
Definition best : Type := Z * option criteria * option Allocator.

(** The condition under which [_get_scores] replaces its running best. *)
Definition adopts (best_score score : Z) : bool :=
  ((best_score =? -2) && (score >=? -1))
  || ((best_score =? 0) && (score >? 0))
  || ((best_score >? 0) && (score <? best_score)).

(** The loop of [_get_scores] over the allocators. *)
Fixpoint _get_scores_loop (allocators : list Allocator) (desc : resource_desc)
  (b : best) (st : State) : outcome best * State :=
  match allocators with
  | [] => (Return b, st)
  | allocator :: rest =>
      let st0 := record (Call_rate_resource (name allocator)) st in
      match rate_resource allocator desc (world st0) with
      | (Return (score, criteria), w) =>
          let '(best_score, _, _) := b in
          let b' := if adopts best_score score
                    then (score, criteria, Some allocator)
                    else b in
          _get_scores_loop rest desc b' (set_world w st0)
      | (Raise e, w) => (Raise e, set_world w st0)
      | (OutOfFuel, w) => (OutOfFuel, set_world w st0)
      end
  end.

Definition _get_scores (self : RAM) (desc : resource_desc) (st : State)
  : outcome best * State :=
  _get_scores_loop (_allocators self) desc (-2, None, None)
                   (record Call_get_scores st).

(** What [_allocate] returns: a tuple (server, server_info), where both are
    None on failure, or None when control leaves the [while] loop. *)
Inductive allocation : Type :=
| Tuple (server : option Server) (info : option server_info)
| NoneValue.

(** The [while best_score == -1] loop of [_allocate]; [globals] is the
    namespace in which the name [time] is looked up. *)
Fixpoint _allocate_loop (globals : list string) (fuel : nat) (self : RAM)
  (desc : resource_desc) (deployment_retries best_score : Z) (st : State)
  : outcome allocation * RAM * State :=
  if negb (best_score =? -1) then (Return NoneValue, self, st)
  else
    match fuel with
    | O => (OutOfFuel, self, st)
    | S fuel' =>
        match _get_scores self desc st with
        | (Return (best_score, best_criteria, best_allocator), st1) =>
            if best_score >=? 0 then
              let self1 := set_allocations self (_allocations self + 1) in
              let name_ := "Sim-" ++ percent_d (_allocations self1) in
              match best_allocator with
              | None => (Raise AttributeError, self1, st1)
              | Some a =>
                  let st2 := record (Call_deploy (name a) name_) st1 in
                  match deploy a name_ desc (world st2) with
                  | (Return (Some server), w) =>
                      let info := {| info_name := get_name server;
                                     info_pid := get_pid server;
                                     info_host := get_host server |} in
                      (Return (Tuple (Some server) (Some info)), self1,
                       set_world w st2)
                  | (Return None, w) =>
                      let deployment_retries := deployment_retries + 1 in
                      if deployment_retries >? 10 then
                        (Return (Tuple None None), self1,
                         record (Log_error "deployment failed too many times.")
                                (set_world w st2))
                      else
                        _allocate_loop globals fuel' self1 desc
                          deployment_retries (-1)
                          (record (Log_warning "deployment failed, retrying.")
                                  (set_world w st2))
                  | (Raise e, w) => (Raise e, self1, set_world w st2)
                  | (OutOfFuel, w) => (OutOfFuel, self1, set_world w st2)
                  end
              end
            else if negb (best_score =? -1) then
              (Return (Tuple None None), self, st1)
            else if bound globals "time" then
              _allocate_loop globals fuel' self desc deployment_retries
                best_score
                (record Call_sleep (set_world (elapse (world st1)) st1))
            else (Raise (NameError "time"), self, st1)
        | (Raise e, st1) => (Raise e, self, st1)
        | (OutOfFuel, st1) => (OutOfFuel, self, st1)
        end
    end.

(** ResourceAllocationManager._allocate *)
Definition _allocate (globals : list string) (fuel : nat) (self : RAM)
  (desc : resource_desc) (st : State) : outcome allocation * RAM * State :=
  _allocate_loop globals fuel self desc 0 (-1) st.

(** The process: the singleton [ResourceAllocationManager._RAM] (None until
    the first [get_instance]) and the state around it. *)
Record Process : Type := {
  _RAM : option RAM;
  state : State
}.

(** ResourceAllocationManager.get_instance *)
Definition get_instance (p : Process) : RAM * Process :=
  match _RAM p with
  | Some ram => (ram, p)
  | None => (RAM_init, {| _RAM := Some RAM_init; state := state p |})
  end.

(** ResourceAllocationManager.add_allocator *)
Definition add_allocator (allocator : Allocator) (p : Process) : Process :=
  let (ram, p1) := get_instance p in
  {| _RAM := Some (set_allocators ram (_allocators ram ++ [allocator])%list);
     state := state p1 |}.

(** ResourceAllocationManager.insert_allocator *)
Definition insert_allocator (index : Z) (allocator : Allocator) (p : Process)
  : outcome unit * Process :=
  let (ram, p1) := get_instance p in
  match list_insert (sys_maxsize (host (world (state p1))))
          (_allocators ram) index allocator with
  | Some allocators =>
      (Return tt,
       {| _RAM := Some (set_allocators ram allocators); state := state p1 |})
  | None => (Raise (OtherError "OverflowError"), p1)
  end.

(** ResourceAllocationManager.allocate: the log handlers are flushed, then
    [_allocate] runs under the manager's lock. *)
Definition allocate (fuel : nat) (desc : resource_desc) (p : Process)
  : outcome allocation * Process :=
  match flush_handlers (host (world (state p))) with
  | Some e => (Raise e, p)
  | None =>
      let (ram, p1) := get_instance p in
      let '(r, ram', st) :=
        _allocate module_globals fuel ram desc (state p1) in
      (r, {| _RAM := Some ram'; state := st |})
  end.

(** ResourceAllocationManager.release, from its [try] on (lines 128-140):
    what runs once [server.get_name()] has returned [get_name server].  The
    whole method, with that call on the proxy, is [release_proxy] below. *)
Definition release (server : Server) (p : Process) : outcome unit * Process :=
  let name_ := get_name server in
  let st := state p in
  match cleanup server (world st) with
  | (None, w) => (Return tt, {| _RAM := _RAM p; state := set_world w st |})
  | (Some e, w) =>
      let p0 := {| _RAM := _RAM p; state := set_world w st |} in
      if is_Exception e then
        let trace_ := format_exc e in
        let (ram, p1) := get_instance p0 in
        let message := "caught exception during cleanup of " ++ name_
                       ++ ": " ++ trace_ in
        match emit message (world (state p1)) with
        | (None, w1) =>
            (Return tt,
             {| _RAM := _RAM p1;
                state := record (Log_warning message)
                                (set_world w1 (state p1)) |})
        | (Some e1, w1) =>
            let p2 := {| _RAM := _RAM p1;
                         state := set_world w1 (state p1) |} in
            if is_Exception e1 then
              (Return tt,
               {| _RAM := _RAM p2;
                  state := record
                    (Print_stderr
                       ("RAM: caught exception logging cleanup of %s: %s "
                        ++ name_ ++ " " ++ trace_))
                    (state p2) |})
            else (Raise e1, p2)
        end
      else (Raise e, p0)
  end.

(** A caller's use of the manager: a sequence of calls of its static
    methods. *)
Inductive call : Type :=
| Add (allocator : Allocator)
| Insert (index : Z) (allocator : Allocator)
| Allocate (desc : resource_desc)
| Release (server : Server).

Definition run_call (fuel : nat) (c : call) (p : Process)
  : outcome unit * Process :=
  match c with
  | Add a => (Return tt, add_allocator a p)
  | Insert i a => insert_allocator i a p
  | Allocate desc =>
      match allocate fuel desc p with
      | (Return _, p') => (Return tt, p')
      | (Raise e, p') => (Raise e, p')
      | (OutOfFuel, p') => (OutOfFuel, p')
      end
  | Release s => release s p
  end.

(** The calls are made one after the other; the caller goes on after a call
    that raised, and makes no further call while one is still running. *)
Fixpoint run_calls (fuel : nat) (calls : list call) (p : Process) : Process :=
  match calls with
  | [] => p
  | c :: rest =>
      match run_call fuel c p with
      | (OutOfFuel, p') => p'
      | (_, p') => run_calls fuel rest p'
      end
  end.

(** The handle names passed to [deploy], in the order of the calls. *)
Fixpoint deploy_names (t : list event) : list string :=
  match t with
  | [] => []
  | Call_deploy _ n :: t' => n :: deploy_names t'
  | _ :: t' => deploy_names t'
  end.

(** How often an event of a kind occurs in a trace. *)
Definition is_get_scores (e : event) : bool :=
  match e with Call_get_scores => true | _ => false end.
Definition is_deploy (e : event) : bool :=
  match e with Call_deploy _ _ => true | _ => false end.
Definition is_sleep (e : event) : bool :=
  match e with Call_sleep => true | _ => false end.

Definition count (kind : event -> bool) (t : list event) : nat :=
  List.length (filter kind t).

(** The scores the allocators return in one pass, in registration order
    (the pass stops at the first allocator that raises). *)
Fixpoint scores_of (allocators : list Allocator) (desc : resource_desc)
  (w : World) : list Z :=
  match allocators with
  | [] => []
  | a :: rest =>
      match rate_resource a desc w with
      | (Return (score, _), w') => score :: scores_of rest desc w'
      | _ => []
      end
  end.

(** An allocator whose two methods return or raise. *)
Definition finishes (desc : resource_desc) (a : Allocator) : Prop :=
  forall w, fst (rate_resource a desc w) <> OutOfFuel
            /\ forall n, fst (deploy a n desc w) <> OutOfFuel.

(** The counter of the singleton, 0 while there is no instance yet. *)
Definition allocations (p : Process) : Z :=
  match _RAM p with
  | Some ram => _allocations ram
  | None => 0
  end.

(** 'Sim-%d' for the [k] values of the counter that follow [c]. *)
Definition sims (c : Z) (k : nat) : list string :=
  map (fun i => "Sim-" ++ percent_d (c + Z.of_nat i)) (seq 1 k).

End Manager.

Arguments get_name {World} _.
Arguments get_pid {World} _.
Arguments get_host {World} _.
Arguments cleanup {World} _ _.
Arguments name {World} _.
Arguments rate_resource {World} _ _ _.
Arguments deploy {World} _ _ _ _.
Arguments ResourceAllocator {World} name.
Arguments local_allocator {World} host create self.
Arguments world {World} _.
Arguments trace {World} _.
Arguments record {World} e st.
Arguments set_world {World} w st.
Arguments _allocations {World} _.
Arguments _allocators {World} _.
Arguments _alloc_index {World} _.
Arguments set_allocations {World} self n.
Arguments set_allocators {World} self l.
Arguments RAM_init {World} host create.
Arguments _get_scores_loop {World} allocators desc b st.
Arguments _get_scores {World} self desc st.
Arguments Tuple {World} server info.
Arguments NoneValue {World}.
Arguments _allocate_loop {World} elapse globals fuel self desc
  deployment_retries best_score st.
Arguments _allocate {World} elapse globals fuel self desc st.
Arguments _RAM {World} _.
Arguments state {World} _.
Arguments get_instance {World} host create p.
Arguments add_allocator {World} host create allocator p.
Arguments insert_allocator {World} host create index allocator p.
Arguments allocate {World} elapse host create fuel desc p.
Arguments release {World} host create emit format_exc server p.
Arguments Add {World} allocator.
Arguments Insert {World} index allocator.
Arguments Allocate {World} desc.
Arguments Release {World} server.
Arguments run_call {World} elapse host create emit format_exc fuel c p.
Arguments run_calls {World} elapse host create emit format_exc fuel calls p.
Arguments scores_of {World} allocators desc w.
Arguments allocations {World} p.
Arguments finishes {World} desc a.

(** ** One scoring pass, seen from outside *)

Section Pass.

Variable World : Type.

(** The ratings the allocators return in one pass, in registration order;
    the pass ends at the first allocator that raises. *)
Fixpoint rate_all (allocators : list (Allocator World)) (desc : resource_desc)
  (w : World) : outcome (list rating) * World :=
  match allocators with
  | [] => (Return [], w)
  | a :: rest =>
      match rate_resource a desc w with
      | (Return r, w1) =>
          match rate_all rest desc w1 with
          | (Return rs, w2) => (Return (r :: rs), w2)
          | (Raise e, w2) => (Raise e, w2)
          | (OutOfFuel, w2) => (OutOfFuel, w2)
          end
      | (Raise e, w1) => (Raise e, w1)
      | (OutOfFuel, w1) => (OutOfFuel, w1)
      end
  end.

(** What one allocator's rating does to the running best. *)
Definition adopt (b : best World) (r : rating) (a : Allocator World)
  : best World :=
  let '(best_score, _, _) := b in
  if adopts best_score (fst r) then (fst r, snd r, Some a) else b.

(** The running best after a list of ratings, each with its allocator. *)
Fixpoint select (b : best World) (rated : list (rating * Allocator World))
  : best World :=
  match rated with
  | [] => b
  | (r, a) :: rest => select (adopt b r a) rest
  end.

End Pass.

Arguments rate_all {World} allocators desc w.
Arguments adopt {World} b r a.
Arguments select {World} b rated.

(** ** release, with the call on the proxy that precedes the cleanup *)

Section Proxy.

Variable World : Type.
Variable host : World -> Host.
Variable create : string -> World -> outcome (option (Server World)) * World.
Variable emit : string -> World -> option exn * World.
Variable format_exc : exn -> string.
(** [server.get_name()] as a call on the proxy of a remote server: [None]
    when it returns (the name is then [get_name server]), [Some e] when it
    raises [e]. *)
Variable call_get_name : Server World -> World -> option exn * World.

(** ResourceAllocationManager.release from its first statement on:
    [release] above is what runs once [server.get_name()] has returned. *)
Definition release_proxy (server : Server World) (p : Process World)
  : outcome unit * Process World :=
  match call_get_name server (world (state p)) with
  | (Some e, w) =>
      (Raise e, {| _RAM := _RAM p; state := set_world w (state p) |})
  | (None, w) =>
      release host create emit format_exc server
        {| _RAM := _RAM p; state := set_world w (state p) |}
  end.

End Proxy.

Arguments release_proxy {World} host create emit format_exc call_get_name
  server p.

(** ** ClusterAllocator *)

(** [s.index(c)] for a character [c]: [None] where Python raises
    ValueError because [c] does not occur in [s]. *)
Fixpoint str_index (c : ascii) (s : string) : option nat :=
  match s with
  | EmptyString => None
  | String d s' =>
      if Ascii.eqb d c then Some O else option_map S (str_index c s')
  end.

(** [s[start:stop]] for indexes that are not negative. *)
Definition slice (s : string) (start stop : nat) : string :=
  substring start (stop - start) s.

(** The address under which [ClusterAllocator.deploy] caches the allocator
    of a host manager: [manager_name] is [manager._name], [None] when the
    manager has no such attribute. *)
Definition host_ip_of (manager_name : option string) : outcome string :=
  match manager_name with
  | None => Return "127.0.0.1"
  | Some host =>
      match str_index "-" host with
      | None => Raise (OtherError "ValueError")
      | Some dash =>
          match str_index ":" host with
          | None => Raise (OtherError "ValueError")
          | Some colon => Return (slice host (dash + 1) colon)
          end
      end
  end.

(** A dict with str keys, as its items in insertion order. *)
Fixpoint dict_get {A : Type} (d : list (string * A)) (key : string)
  : option A :=
  match d with
  | [] => None
  | (k, v) :: d' => if String.eqb k key then Some v else dict_get d' key
  end.

(** [d[key] = v] *)
Fixpoint dict_set {A : Type} (d : list (string * A)) (key : string) (v : A)
  : list (string * A) :=
  match d with
  | [] => [(key, v)]
  | (k, v0) :: d' =>
      if String.eqb k key then (k, v) :: d' else (k, v0) :: dict_set d' key v
  end.

Definition dict_keys {A : Type} (d : list (string * A)) : list string :=
  map fst d.

(** [mp_distributing.Host(hostname, slots=1, python=python)], as far as
    [ClusterAllocator.__init__] fills it. *)
Record ClusterHost : Type := {
  hostname : string;
  slots : Z;
  python : string
}.

(** The loop of [ClusterAllocator.__init__] over the machines: one host per
    machine; a machine dict without 'hostname' or 'python' raises
    KeyError. *)
Fixpoint cluster_hosts (machines : list (list (string * string)))
  : outcome (list ClusterHost) :=
  match machines with
  | [] => Return []
  | machine :: rest =>
      match dict_get machine "hostname" with
      | None => Raise (OtherError "KeyError")
      | Some h =>
          match dict_get machine "python" with
          | None => Raise (OtherError "KeyError")
          | Some py =>
              match cluster_hosts rest with
              | Return hosts =>
                  Return ({| hostname := h; slots := 1; python := py |}
                          :: hosts)
              | Raise e => Raise e
              | OutOfFuel => OutOfFuel
              end
          end
      end
  end.

Section Cluster.

Variable World : Type.

(** A host manager of the cluster, as [deploy] uses it (its calls are
    taken to return; the lock around the cache is left out, the deploys
    being made one after the other). *)
Record HostManager : Type := {
  (** [manager._name]; [None] when the manager has no such attribute. *)
  _name : option string;
  (** [manager.LocalAllocator()]: a proxy of an allocator on that host. *)
  new_LocalAllocator : World -> Allocator World * World
}.

Record ClusterAllocator : Type := {
  (** [self.cluster.get_host_manager()] *)
  get_host_manager : World -> HostManager * World;
  local_allocators : list (string * Allocator World)
}.

Definition set_local_allocators (self : ClusterAllocator)
  (d : list (string * Allocator World)) : ClusterAllocator :=
  {| get_host_manager := get_host_manager self; local_allocators := d |}.

(** ClusterAllocator.deploy *)
Definition ClusterAllocator_deploy (self : ClusterAllocator) (name_ : string)
  (desc : resource_desc) (w : World)
  : outcome (option (Server World)) * ClusterAllocator * World :=
  let (manager, w1) := get_host_manager self w in
  match host_ip_of (_name manager) with
  | Return host_ip =>
      let '(self1, w2) :=
        match dict_get (local_allocators self) host_ip with
        | Some _ => (self, w1)
        | None =>
            let (a, w2) := new_LocalAllocator manager w1 in
            (set_local_allocators self
               (dict_set (local_allocators self) host_ip a), w2)
        end in
      match dict_get (local_allocators self1) host_ip with
      | Some a =>
          let (r, w3) := deploy a name_ desc w2 in (r, self1, w3)
      | None => (Raise (OtherError "KeyError"), self1, w2)
      end
  | Raise e => (Raise e, self, w1)
  | OutOfFuel => (OutOfFuel, self, w1)
  end.

(** Deploys made one after the other on the same cluster allocator. *)
Fixpoint cluster_deploys (self : ClusterAllocator)
  (requests : list (string * resource_desc)) (w : World)
  : ClusterAllocator * World :=
  match requests with
  | [] => (self, w)
  | (name_, desc) :: rest =>
      let '(_, self1, w1) := ClusterAllocator_deploy self name_ desc w in
      cluster_deploys self1 rest w1
  end.

End Cluster.

Arguments _name {World} _.
Arguments new_LocalAllocator {World} _ _.
Arguments get_host_manager {World} _ _.
Arguments local_allocators {World} _.
Arguments set_local_allocators {World} self d.
Arguments ClusterAllocator_deploy {World} self name_ desc w.
Arguments cluster_deploys {World} self requests w.

(** ** Requests the local allocator can rate *)

(** The keys [LocalAllocator.rate_resource] recognizes. *)
Definition recognized (key : string) : bool :=
  String.eqb key "localhost" || String.eqb key "n_cpus"
  || String.eqb key "required_distributions"
  || String.eqb key "orphan_modules" || String.eqb key "python_version".

(** Whether the check of an item raises: an availability check run on a
    value it cannot iterate, an import that raises something else than
    ImportError. *)
Definition item_raises (self : LocalAllocator) (host : Host)
  (item : string * value) : bool :=
  match rate_item self host item with
  | Some (Raise _) | Some OutOfFuel => true
  | Some (Return _) | None => false
  end.

(** No item of the request has a check that raises. *)
Definition checks_return (self : LocalAllocator) (host : Host)
  (desc : resource_desc) : bool :=
  forallb (fun item => negb (item_raises self host item)) desc.

(** An item passes when its check lets the loop go on to the next item. *)
Definition passes (self : LocalAllocator) (host : Host)
  (item : string * value) : bool :=
  let (key, value) := item in
  if String.eqb key "localhost" then truthy value
  else if String.eqb key "n_cpus" then negb (gt_int value (total_cpus self))
  else if String.eqb key "required_distributions" then
    match check_required_distributions host value with
    | Return (score, _) => 0 <=? score
    | _ => false
    end
  else if String.eqb key "orphan_modules" then
    match check_orphan_modules host value with
    | Return (score, _) => 0 <=? score
    | _ => false
    end
  else if String.eqb key "python_version" then
    negb (ne_str (substring 0 3 (sys_version host)) value)
  else false.

(** Whether a criteria dict carries load averages. *)
Definition reports_load (info : option criteria) : bool :=
  match info with
  | None => false
  | Some items =>
      existsb (fun kv => match snd kv with CLoad _ => true | _ => false end)
              items
  end.

(** The same host with another answer of [os.getloadavg]. *)
Definition with_loadavg (host : Host) (l : option (Q * Q * Q)) : Host :=
  {| sys_version := sys_version host;
     sys_maxsize := sys_maxsize host;
     getloadavg := l;
     import_module := import_module host;
     check_requirements := check_requirements host;
     flush_handlers := flush_handlers host |}.

(** ** Scenarios

    The world is the state of the local host; sleeping leaves it as it is. *)

Module Scenario.

Definition idle : Host :=
  {| sys_version := "2.6.5 (r265:79063)";
     sys_maxsize := 2 ^ 63 - 1;
     getloadavg := Some (1 # 2, 1 # 2, 1 # 2);
     import_module := fun m =>
       if String.eqb m "" then Some (OtherError "ValueError") else None;
     check_requirements := fun _ => [];
     flush_handlers := None |}.

Definition busy : Host := with_loadavg idle (Some (3 # 1, 2 # 1, 1 # 1)).

Definition stay (w : Host) : Host := w.
Definition this_host (w : Host) : Host := w.

Definition worker (name : string) : Server Host :=
  {| get_name := name; get_pid := 4242; get_host := "localhost";
     cleanup := fun w => (None, w) |}.

Definition spawn (name : string) (w : Host)
  : outcome (option (Server Host)) * Host :=
  (Return (Some (worker name)), w).

(** A server whose cleanup raises. *)
Definition stuck_worker : Server Host :=
  {| get_name := "Sim-1"; get_pid := 4242; get_host := "localhost";
     cleanup := fun w => (Some (OtherError "RuntimeError"), w) |}.

(** A logger whose handler fails. *)
Definition emit_fails (message : string) (w : Host) : option exn * Host :=
  (Some (OtherError "IOError"), w).

Definition exc_text (e : exn) : string :=
  match e with
  | NameError n => "NameError: global name '" ++ n ++ "' is not defined"
  | AttributeError => "AttributeError"
  | TypeError => "TypeError"
  | NotImplementedError => "NotImplementedError"
  | ImportError => "ImportError"
  | OtherError cls => cls
  | KeyboardInterrupt => "KeyboardInterrupt"
  | SystemExit => "SystemExit"
  end.

(** An allocator that rates every request with [score] and whose deploy
    returns None. *)
Definition scoring (n : string) (score : Z) : Allocator Host :=
  {| name := n;
     rate_resource := fun _ w => (Return (score, None), w);
     deploy := fun _ _ w => (Return None, w) |}.

Definition manager (allocators : list (Allocator Host)) : RAM Host :=
  {| _allocations := 0; _allocators := allocators; _alloc_index := 0 |}.

Definition start (w : Host) : State Host := {| world := w; trace := [] |}.

Definition fresh (w : Host) : Process Host :=
  {| _RAM := None; state := start w |}.

End Scenario.

(** A cluster whose host manager is always the one of 10.0.0.7. *)

Module ClusterScenario.

Definition remote : Allocator Host :=
  {| name := "LocalAllocator";
     rate_resource := fun _ w => (Return (0, None), w);
     deploy := fun n _ w => (Return (Some (Scenario.worker n)), w) |}.

Definition manager_of (n : option string) : HostManager Host :=
  {| _name := n; new_LocalAllocator := fun w => (remote, w) |}.

Definition cluster (n : option string) : ClusterAllocator Host :=
  {| get_host_manager := fun w => (manager_of n, w);
     local_allocators := [] |}.

Definition machines : list (list (string * string)) :=
  [[("hostname", "10.0.0.7"); ("python", "/opt/openmdao/bin/python")];
   [("python", "python2.6"); ("hostname", "10.0.0.8")]].

End ClusterScenario.

(** Collaborators that fail. *)

Module Faults.

(** An allocator that rates every request 0 and whose deploy raises. *)
Definition raising_deploy : Allocator Host :=
  {| name := "raising";
     rate_resource := fun _ w => (Return (0, None), w);
     deploy := fun _ _ w => (Raise (OtherError "RuntimeError"), w) |}.

(** A server whose cleanup is interrupted from the keyboard. *)
Definition interrupted_worker : Server Host :=
  {| get_name := "Sim-1"; get_pid := 4242; get_host := "localhost";
     cleanup := fun w => (Some KeyboardInterrupt, w) |}.

(** A host on which only [os] and [sys] can be imported. *)
Definition bare : Host :=
  {| sys_version := "2.6.5 (r265:79063)";
     sys_maxsize := 2 ^ 63 - 1;
     getloadavg := None;
     import_module := fun m =>
       if String.eqb m "os" || String.eqb m "sys" then None
       else if String.eqb m "" then Some (OtherError "ValueError")
       else Some ImportError;
     check_requirements := fun _ => [];
     flush_handlers := None |}.

(** A host whose log handlers cannot be flushed. *)
Definition unflushable : Host :=
  {| sys_version := "2.7.3 (default)";
     sys_maxsize := 2 ^ 63 - 1;
     getloadavg := None;
     import_module := fun _ => None;
     check_requirements := fun _ => [];
     flush_handlers := Some AttributeError |}.

(** Allocators on a world that counts the deploy attempts made so far.
    [tiring] rates every request 0 until a deploy has been attempted, and
    its rating raises afterwards; its deploy fails. *)
Definition tiring : Allocator nat :=
  {| name := "tiring";
     rate_resource := fun _ w =>
       match w with
       | O => (Return (0, None), w)
       | S _ => (Raise (OtherError "RuntimeError"), w)
       end;
     deploy := fun _ _ w => (Return None, S w) |}.

(** [brittle] rates every request 0; its first deploy fails and the later
    ones raise. *)
Definition brittle : Allocator nat :=
  {| name := "brittle";
     rate_resource := fun _ w => (Return (0, None), w);
     deploy := fun _ _ w =>
       match w with
       | O => (Return None, S w)
       | S _ => (Raise (OtherError "RuntimeError"), S w)
       end |}.

(** A proxy whose connection is lost: [get_name] raises. *)
Definition lost_connection (server : Server Host) (w : Host)
  : option exn * Host :=
  (Some (OtherError "EOFError"), w).

End Faults.

(** ** Properties of LocalAllocator.rate_resource *)

Section LocalRating.

Variable self : LocalAllocator.
Variable host : Host.

Lemma import_modules_cases (modules not_found : list string) :
  (exists names, import_modules host modules not_found = Return names)
  \/ exists e, import_modules host modules not_found = Raise e.
Proof.
  revert not_found. induction modules as [|m rest IH]; intros not_found; simpl.
  - left. eexists. reflexivity.
  - destruct (import_module host m) as [e|]; [|apply IH].
    destruct e; try (right; eexists; reflexivity). apply IH.
Qed.

(** The two availability checks answer (0, None), or -2 with the names they
    miss, or they raise. *)
Lemma check_required_distributions_cases (v : value) :
  check_required_distributions host v = Return (0, None)
  \/ (exists names,
        check_required_distributions host v
        = Return (-2, Some [("required_distributions", CNames names)]))
  \/ exists e, check_required_distributions host v = Raise e.
Proof.
  unfold check_required_distributions.
  destruct v as [b|n|s|l|ds];
    try (right; right; eexists; reflexivity).
  - destruct s; [|right; right; eexists; reflexivity].
    destruct (check_requirements host (sorted [])) as [|r rs];
      [left | right; left; eexists]; reflexivity.
  - destruct l; [|right; right; eexists; reflexivity].
    destruct (check_requirements host (sorted [])) as [|r rs];
      [left | right; left; eexists]; reflexivity.
  - destruct (check_requirements host (sorted (map as_requirement ds)))
      as [|r rs]; [left | right; left; eexists]; reflexivity.
Qed.

Lemma check_orphan_modules_cases (v : value) :
  check_orphan_modules host v = Return (0, None)
  \/ (exists names,
        check_orphan_modules host v
        = Return (-2, Some [("orphan_modules", CNames names)]))
  \/ exists e, check_orphan_modules host v = Raise e.
Proof.
  unfold check_orphan_modules.
  destruct v as [b|n|s|l|[|d ds]];
    try (right; right; eexists; reflexivity);
    cbv beta zeta;
    match goal with |- context [import_modules host ?m []] =>
      destruct (import_modules_cases m []) as [[names ->] | [e ->]]
    end;
    try (right; right; eexists; reflexivity);
    (destruct (0 <? _); [right; left; eexists | left]; reflexivity).
Qed.

(** An item lets the loop go on, or ends it with -2 and criteria without
    load figures, or its check raises. *)
Lemma rate_item_cases (item : string * value) :
  rate_item self host item = None
  \/ (exists info,
        rate_item self host item = Some (Return (-2, Some info))
        /\ reports_load (Some info) = false)
  \/ exists e, rate_item self host item = Some (Raise e).
Proof.
  destruct item as [key v]. unfold rate_item.
  destruct (String.eqb key "localhost").
  { destruct (negb (truthy v)); [right; left | left; reflexivity].
    eexists. split; reflexivity. }
  destruct (String.eqb key "n_cpus").
  { destruct (gt_int v (total_cpus self)); [right; left | left; reflexivity].
    eexists. split; reflexivity. }
  destruct (String.eqb key "required_distributions").
  { destruct (check_required_distributions_cases v)
      as [-> | [[names ->] | [e ->]]];
      [left; reflexivity | right; left | right; right; eexists; reflexivity].
    eexists. split; reflexivity. }
  destruct (String.eqb key "orphan_modules").
  { destruct (check_orphan_modules_cases v)
      as [-> | [[names ->] | [e ->]]];
      [left; reflexivity | right; left | right; right; eexists; reflexivity].
    eexists. split; reflexivity. }
  destruct (String.eqb key "python_version").
  { destruct (ne_str _ v); [right; left | left; reflexivity].
    eexists. split; reflexivity. }
  right. left. eexists. split; reflexivity.
Qed.

(** An item with a key outside the recognized set ends the loop with -2. *)
Lemma rate_item_unrecognized (key : string) (v : value) :
  recognized key = false ->
  rate_item self host (key, v) = Some (Return (-2, Some [(key, CValue v)])).
Proof.
  unfold recognized, rate_item. intros H.
  repeat (apply orb_false_elim in H; destruct H as [H ?]).
  repeat match goal with E : String.eqb _ _ = false |- _ => rewrite E; clear E end.
  reflexivity.
Qed.

(** The loop over the items never looks at the load. *)
Lemma import_modules_ignores_load (l : option (Q * Q * Q))
  (modules not_found : list string) :
  import_modules (with_loadavg host l) modules not_found
  = import_modules host modules not_found.
Proof.
  revert not_found. induction modules as [|m rest IH]; intros not_found;
    simpl; [reflexivity|].
  destruct (import_module host m) as [e|]; [destruct e|]; auto.
Qed.

Lemma rate_item_ignores_load (l : option (Q * Q * Q))
  (item : string * value) :
  rate_item self (with_loadavg host l) item = rate_item self host item.
Proof.
  destruct item as [key v]. unfold rate_item.
  assert (check_orphan_modules (with_loadavg host l) v
          = check_orphan_modules host v) as ->.
  { unfold check_orphan_modules.
    destruct v as [b|n|s|ms|[|d ds]]; try reflexivity; cbv beta zeta;
      now rewrite import_modules_ignores_load. }
  reflexivity.
Qed.

Lemma rate_items_ignores_load (l : option (Q * Q * Q)) (desc : resource_desc) :
  rate_items self (with_loadavg host l) desc = rate_items self host desc.
Proof.
  induction desc as [|item rest IH]; simpl; [reflexivity|].
  now rewrite IH, rate_item_ignores_load.
Qed.

(** The loop falls through, or answers -2 without load figures, or
    raises. *)
Lemma rate_items_cases (desc : resource_desc) :
  rate_items self host desc = None
  \/ (exists info,
        rate_items self host desc = Some (Return (-2, Some info))
        /\ reports_load (Some info) = false)
  \/ exists e, rate_items self host desc = Some (Raise e).
Proof.
  induction desc as [|item rest IH]; simpl; [left; reflexivity|].
  destruct (rate_item_cases item)
    as [-> | [(info & -> & Hload) | [e ->]]].
  - exact IH.
  - right. left. exists info. auto.
  - right. right. exists e. reflexivity.
Qed.

(** ... and it does not fall through when some key is not recognized. *)
Lemma rate_items_unrecognized (desc : resource_desc) :
  (exists item, In item desc /\ recognized (fst item) = false) ->
  rate_items self host desc <> None.
Proof.
  induction desc as [|item rest IH]; simpl; intros (bad & Hin & Hbad);
    [contradiction|].
  destruct (rate_item self host item) eqn:E; [discriminate|].
  destruct Hin as [-> | Hin].
  - destruct bad as [key v]. simpl in Hbad.
    rewrite (rate_item_unrecognized key v Hbad) in E. discriminate.
  - apply IH. exists bad. auto.
Qed.

(** When no check raises, neither does the loop. *)
Lemma rate_items_return (desc : resource_desc) (e : exn) :
  checks_return self host desc = true ->
  rate_items self host desc <> Some (Raise e).
Proof.
  unfold checks_return.
  induction desc as [|item rest IH]; simpl; intros H; [discriminate|].
  apply andb_prop in H. destruct H as [Hitem Hrest].
  unfold item_raises in Hitem.
  destruct (rate_item self host item) as [[r|e0|]|];
    try discriminate; auto.
Qed.

(** An item passes exactly when the loop goes on after it. *)
Lemma passes_iff (item : string * value) :
  passes self host item = true <-> rate_item self host item = None.
Proof.
  destruct item as [key v]. unfold passes, rate_item.
  destruct (String.eqb key "localhost").
  { destruct (truthy v); simpl; split; congruence. }
  destruct (String.eqb key "n_cpus").
  { destruct (gt_int v (total_cpus self)); simpl; split; congruence. }
  destruct (String.eqb key "required_distributions").
  { destruct (check_required_distributions host v) as [[score info]|e|];
      try (split; discriminate).
    destruct (Z.ltb_spec score 0), (Z.leb_spec 0 score);
      split; intros; try reflexivity; try discriminate; lia. }
  destruct (String.eqb key "orphan_modules").
  { destruct (check_orphan_modules host v) as [[score info]|e|];
      try (split; discriminate).
    destruct (Z.ltb_spec score 0), (Z.leb_spec 0 score);
      split; intros; try reflexivity; try discriminate; lia. }
  destruct (String.eqb key "python_version").
  { destruct (ne_str _ v); simpl; split; congruence. }
  split; discriminate.
Qed.

Lemma rate_items_pass (desc : resource_desc) :
  forallb (passes self host) desc = true ->
  rate_items self host desc = None.
Proof.
  induction desc as [|item rest IH]; simpl; intros H; [reflexivity|].
  apply andb_prop in H. destruct H as [Hitem Hrest].
  apply passes_iff in Hitem. rewrite Hitem. exact (IH Hrest).
Qed.

(** The load check answers 0 or -1. *)
Lemma check_system_load_cases :
  exists score info,
    check_system_load self host = Return (score, info)
    /\ (score = -1 \/ score = 0).
Proof.
  unfold check_system_load. destruct (getloadavg host) as [l|].
  - destruct (load_below l (max_load self)); eexists _, _; split;
      try reflexivity; auto.
  - eexists _, _; split; try reflexivity; auto.
Qed.

Lemma load_below_spec (l1 l5 l15 limit : Q) :
  load_below (l1, l5, l15) limit = true <-> (l1 < limit)%Q.
Proof.
  unfold load_below. rewrite negb_true_iff.
  destruct (Qle_bool limit l1) eqn:E.
  - apply Qle_bool_iff in E. split; [discriminate|].
    intros H. exfalso. exact (Qlt_not_le _ _ H E).
  - split; [intros _ | reflexivity].
    apply Qnot_le_lt. intros H. apply Qle_bool_iff in H. congruence.
Qed.

(** C6 (as amended): on a request with a key outside the recognized set
    the local allocator never answers another score than -2 and never
    reports load averages: either it returns -2 with criteria that carry no
    load averages, or the check of an item that comes before the
    unrecognized key raises and that exception propagates; the answer is the
    same whatever [os.getloadavg] would say, since the load check is not
    reached; and when no check raises, the answer is -2. *)
Theorem unrecognized_key_is_unsupported (desc : resource_desc) :
  (exists item, In item desc /\ recognized (fst item) = false) ->
  ((exists info,
      LocalAllocator_rate_resource self host desc = Return (-2, Some info)
      /\ reports_load (Some info) = false)
   \/ exists e, LocalAllocator_rate_resource self host desc = Raise e)
  /\ (forall l,
        LocalAllocator_rate_resource self (with_loadavg host l) desc
        = LocalAllocator_rate_resource self host desc)
  /\ (checks_return self host desc = true ->
      exists info,
        LocalAllocator_rate_resource self host desc = Return (-2, Some info)
        /\ reports_load (Some info) = false).
Proof.
  intros Hbad. pose proof (rate_items_unrecognized desc Hbad) as Hnone.
  unfold LocalAllocator_rate_resource.
  destruct (rate_items_cases desc)
    as [E | [(info & E & Hload) | [e E]]]; [contradiction| |].
  - repeat split.
    + left. exists info. now rewrite E.
    + intros l. now rewrite rate_items_ignores_load, E.
    + intros _. exists info. now rewrite E.
  - repeat split.
    + right. exists e. now rewrite E.
    + intros l. now rewrite rate_items_ignores_load, E.
    + intros Hret. exfalso. exact (rate_items_return desc e Hret E).
Qed.

(** C7: when every item of the request passes its check, the answer is
    (0, {}) where the load average is not available, and otherwise 0 when
    the 1-minute load average is below [max_load] and -1 when it is at or
    above it, in both cases with the load averages and [max_load] as
    criteria. *)
Theorem load_decides_when_all_keys_pass (desc : resource_desc) :
  forallb (passes self host) desc = true ->
  (getloadavg host = None ->
   LocalAllocator_rate_resource self host desc = Return (0, Some []))
  /\ (forall l1 l5 l15,
        getloadavg host = Some (l1, l5, l15) ->
        let info := [("loadavgs", CLoad (l1, l5, l15));
                     ("max_load", CNum (max_load self))] in
        ((l1 < max_load self)%Q ->
         LocalAllocator_rate_resource self host desc = Return (0, Some info))
        /\ ((max_load self <= l1)%Q ->
            LocalAllocator_rate_resource self host desc
            = Return (-1, Some info))).
Proof.
  intros Hpass. unfold LocalAllocator_rate_resource, check_system_load.
  rewrite (rate_items_pass desc Hpass). split.
  - intros ->. reflexivity.
  - intros l1 l5 l15 ->. simpl. split; intros H.
    + apply (proj2 (load_below_spec l1 l5 l15 _)) in H.
      unfold load_below in H. now rewrite H.
    + destruct (Qle_bool (max_load self) l1) eqn:E; [reflexivity|].
      apply Qle_bool_iff in H. congruence.
Qed.

(** Whenever the local allocator returns, its score is -2, -1 or 0. *)
Lemma local_score_range (desc : resource_desc) score info :
  LocalAllocator_rate_resource self host desc = Return (score, info) ->
  score = -2 \/ score = -1 \/ score = 0.
Proof.
  unfold LocalAllocator_rate_resource.
  destruct (rate_items_cases desc)
    as [-> | [(info0 & -> & _) | [e ->]]].
  - destruct check_system_load_cases as (s0 & i0 & -> & H).
    intros [= <- _]. tauto.
  - intros [= <- _]. auto.
  - discriminate.
Qed.

(** ... and it returns when no check raises. *)
Lemma local_returns (desc : resource_desc) :
  checks_return self host desc = true ->
  exists score info,
    LocalAllocator_rate_resource self host desc = Return (score, info).
Proof.
  intros Hret. unfold LocalAllocator_rate_resource.
  destruct (rate_items_cases desc)
    as [-> | [(info0 & -> & _) | [e E]]].
  - destruct check_system_load_cases as (s0 & i0 & -> & H).
    eexists _, _. reflexivity.
  - eexists _, _. reflexivity.
  - exfalso. exact (rate_items_return desc e Hret E).
Qed.

End LocalRating.

(** ** Properties of the manager *)

Lemma adopts_spec (best_score score : Z) :
  adopts best_score score = true
  <-> (best_score = -2 /\ score >= -1)
      \/ (best_score = 0 /\ score > 0)
      \/ (best_score > 0 /\ score < best_score).
Proof.
  unfold adopts.
  rewrite !orb_true_iff, !andb_true_iff, !Z.eqb_eq, Z.geb_le, !Z.gtb_ltb,
    !Z.ltb_lt.
  lia.
Qed.

Lemma count_app (kind : event -> bool) (t t' : list event) :
  count kind (t ++ t') = (count kind t + count kind t')%nat.
Proof. unfold count. now rewrite filter_app, length_app. Qed.

Lemma count_rates (kind : event -> bool) (l : list string) :
  (forall a, kind (Call_rate_resource a) = false) ->
  count kind (map Call_rate_resource l) = 0%nat.
Proof.
  intros H. unfold count. induction l as [|a l IH]; simpl; [reflexivity|].
  now rewrite H.
Qed.

Lemma deploy_names_app (t t' : list event) :
  deploy_names (t ++ t') = (deploy_names t ++ deploy_names t')%list.
Proof.
  induction t as [|e t IH]; simpl; [reflexivity|].
  destruct e; simpl; now rewrite IH.
Qed.

Lemma deploy_names_rates (l : list string) :
  deploy_names (map Call_rate_resource l) = [].
Proof. induction l; simpl; auto. Qed.

Lemma sims_cons (c : Z) (k : nat) :
  sims c (S k) = ("Sim-" ++ percent_d (c + 1)) :: sims (c + 1) k.
Proof.
  unfold sims. cbn [seq map]. f_equal. rewrite <- seq_shift, map_map.
  apply map_ext. intros i. do 2 f_equal. lia.
Qed.

Lemma sims_app (c : Z) (j k : nat) :
  sims c (j + k) = (sims c j ++ sims (c + Z.of_nat j) k)%list.
Proof.
  revert c. induction j as [|j IH]; intros c.
  - simpl. now rewrite Z.add_0_r.
  - change (S j + k)%nat with (S (j + k)). rewrite !sims_cons, IH. simpl.
    do 3 f_equal. lia.
Qed.

Lemma percent_d_inj (m n : Z) : percent_d m = percent_d n -> m = n.
Proof.
  unfold percent_d. intros H. apply DecimalZ.to_int_inj.
  apply (f_equal NilEmpty.int_of_string) in H.
  rewrite !NilEmpty.isi in H. congruence.
Qed.

Lemma sims_NoDup (c : Z) (k : nat) : NoDup (sims c k).
Proof.
  unfold sims. apply Injective_map_NoDup; [|apply seq_NoDup].
  intros i j H. simpl in H. injection H as H. apply percent_d_inj in H. lia.
Qed.

Section ManagerProperties.

Variable World : Type.
Variable elapse : World -> World.
Variable host : World -> Host.
Variable create : string -> World -> outcome (option (Server World)) * World.
Variable emit : string -> World -> option exn * World.
Variable format_exc : exn -> string.

(** A scoring pass adds to the trace its own call and the calls of
    [rate_resource] it makes, and nothing else. *)
Lemma get_scores_loop_trace allocators desc (b : best World) st :
  exists l,
    trace (snd (_get_scores_loop allocators desc b st))
    = (trace st ++ map Call_rate_resource l)%list.
Proof.
  revert b st. induction allocators as [|a rest IH]; intros b st; simpl.
  - exists []. simpl. now rewrite app_nil_r.
  - destruct (rate_resource a desc (world st)) as [[[score info]|e|] w].
    + destruct b as [[best_score best_criteria] best_allocator].
      match goal with |- context [_get_scores_loop rest desc ?b' ?st'] =>
        destruct (IH b' st') as [l E] end.
      exists (name a :: l). rewrite E. simpl. now rewrite <- app_assoc.
    + exists [name a]. reflexivity.
    + exists [name a]. reflexivity.
Qed.

Lemma get_scores_trace (self : RAM World) desc st :
  exists l,
    trace (snd (_get_scores self desc st))
    = (trace st ++ Call_get_scores :: map Call_rate_resource l)%list.
Proof.
  unfold _get_scores.
  destruct (get_scores_loop_trace (_allocators self) desc (-2, None, None)
              (record Call_get_scores st)) as [l E].
  exists l. rewrite E. simpl. now rewrite <- app_assoc.
Qed.

Lemma get_scores_counts (self : RAM World) desc st :
  let st1 := snd (_get_scores self desc st) in
  count is_get_scores (trace st1) = (count is_get_scores (trace st) + 1)%nat
  /\ count is_deploy (trace st1) = count is_deploy (trace st)
  /\ count is_sleep (trace st1) = count is_sleep (trace st)
  /\ deploy_names (trace st1) = deploy_names (trace st).
Proof.
  destruct (get_scores_trace self desc st) as [l E]. simpl. rewrite E.
  change (Call_get_scores :: map Call_rate_resource l)
    with ([Call_get_scores] ++ map Call_rate_resource l)%list.
  rewrite !count_app, !deploy_names_app, deploy_names_rates,
    !count_rates by reflexivity.
  simpl. rewrite app_nil_r. repeat split; unfold count; simpl; lia.
Qed.

(** While no candidate has been adopted the running best is the sentinel:
    a pass that returns no allocator returns the score -2. *)
Lemma get_scores_loop_allocator allocators desc (b : best World) st
  best_score best_criteria st1 :
  (snd b = None -> fst (fst b) = -2) ->
  _get_scores_loop allocators desc b st
  = (Return (best_score, best_criteria, None), st1) ->
  best_score = -2.
Proof.
  revert b st. induction allocators as [|a rest IH]; intros b st Hb; simpl.
  - intros [= -> _]. exact (Hb eq_refl).
  - destruct (rate_resource a desc (world st)) as [[[score info]|e|] w];
      try discriminate.
    destruct b as [[bs bc] ba]. apply IH.
    destruct (adopts bs score); [discriminate | exact Hb].
Qed.

Lemma get_scores_allocator (self : RAM World) desc st
  best_score best_criteria st1 :
  _get_scores self desc st = (Return (best_score, best_criteria, None), st1) ->
  best_score = -2.
Proof.
  unfold _get_scores. apply get_scores_loop_allocator. reflexivity.
Qed.

(** One turn of the loop of [_allocate] when the pass answers -1. *)
Lemma allocate_shortage globals fuel (self : RAM World) desc st
  best_criteria best_allocator st1 :
  _get_scores self desc st
  = (Return (-1, best_criteria, best_allocator), st1) ->
  _allocate elapse globals (S fuel) self desc st
  = if bound globals "time"
    then _allocate_loop elapse globals fuel self desc 0 (-1)
           (record Call_sleep (set_world (elapse (world st1)) st1))
    else (Raise (NameError "time"), self, st1).
Proof.
  intros E. unfold _allocate. simpl. rewrite E. simpl. reflexivity.
Qed.

(** C5: when the scoring pass answers -2, [_allocate] returns (None, None)
    after that one pass: it calls neither [deploy] nor [time.sleep], and it
    leaves the allocation counter as it was. *)
Theorem unsupported_request_fails_at_once globals fuel (self : RAM World)
  desc st best_criteria best_allocator st1 :
  _get_scores self desc st
  = (Return (-2, best_criteria, best_allocator), st1) ->
  _allocate elapse globals (S fuel) self desc st
  = (Return (Tuple None None), self, st1)
  /\ count is_get_scores (trace st1) = (count is_get_scores (trace st) + 1)%nat
  /\ count is_deploy (trace st1) = count is_deploy (trace st)
  /\ count is_sleep (trace st1) = count is_sleep (trace st).
Proof.
  intros E. split.
  - unfold _allocate. simpl. rewrite E. reflexivity.
  - pose proof (get_scores_counts self desc st) as H. rewrite E in H.
    simpl in H. tauto.
Qed.

(** One turn of the loop of [_allocate] when the selected allocator can
    serve and its [deploy] returns None. *)
Lemma allocate_loop_deploy_fails globals fuel (self : RAM World) desc r st
  best_score best_criteria a st1 w :
  _get_scores self desc st = (Return (best_score, best_criteria, Some a), st1) ->
  0 <= best_score ->
  deploy a ("Sim-" ++ percent_d (_allocations self + 1)) desc (world st1)
  = (Return None, w) ->
  let self1 := set_allocations self (_allocations self + 1) in
  let st2 :=
    set_world w
      (record (Call_deploy (name a)
                 ("Sim-" ++ percent_d (_allocations self + 1))) st1) in
  _allocate_loop elapse globals (S fuel) self desc r (-1) st
  = if r + 1 >? 10
    then (Return (Tuple None None), self1,
          record (Log_error "deployment failed too many times.") st2)
    else _allocate_loop elapse globals fuel self1 desc (r + 1) (-1)
           (record (Log_warning "deployment failed, retrying.") st2).
Proof.
  intros E Hbs Ed. simpl. rewrite E.
  replace (best_score >=? 0) with true by (symmetry; apply Z.geb_le; lia).
  simpl in Ed. rewrite Ed. reflexivity.
Qed.

Lemma failing_deploy_loop globals (a : Allocator World) desc
  (allocators : list (Allocator World)) :
  (forall (self : RAM World) st, _allocators self = allocators ->
     exists best_score best_criteria st1,
       _get_scores self desc st
       = (Return (best_score, best_criteria, Some a), st1)
       /\ 0 <= best_score) ->
  (forall n w, exists w', deploy a n desc w = (Return None, w')) ->
  forall (k fuel : nat) (self : RAM World) r st,
    _allocators self = allocators ->
    r + Z.of_nat k = 10 -> (k < fuel)%nat ->
    exists self' st',
      _allocate_loop elapse globals fuel self desc r (-1) st
      = (Return (Tuple None None), self', st')
      /\ count is_get_scores (trace st')
         = (count is_get_scores (trace st) + S k)%nat
      /\ count is_deploy (trace st') = (count is_deploy (trace st) + S k)%nat
      /\ count is_sleep (trace st') = count is_sleep (trace st)
      /\ _allocations self' = _allocations self + Z.of_nat (S k).
Proof.
  intros Hwins Hfails.
  induction k as [|k IH]; intros fuel self r st Hself Hr Hk;
    (destruct fuel as [|fuel]; [lia|]);
    destruct (Hwins self st Hself) as (bs & bc & st1 & E & Hbs);
    destruct (Hfails ("Sim-" ++ percent_d (_allocations self + 1)) (world st1))
      as [w Ed];
    rewrite (allocate_loop_deploy_fails globals fuel self desc r st
               bs bc a st1 w E Hbs Ed);
    pose proof (get_scores_counts self desc st) as Hc; rewrite E in Hc;
    simpl in Hc; destruct Hc as (Hc1 & Hc2 & Hc3 & _).
  - replace (r + 1 >? 10) with true
      by (symmetry; rewrite Z.gtb_ltb; apply Z.ltb_lt; lia).
    eexists _, _. split; [reflexivity|]. cbn [trace record set_world].
    rewrite !count_app, Hc1, Hc2, Hc3. unfold count. simpl. lia.
  - replace (r + 1 >? 10) with false
      by (symmetry; rewrite Z.gtb_ltb; apply Z.ltb_ge; lia).
    match goal with |- context [_allocate_loop _ _ fuel ?s desc _ _ ?t] =>
      destruct (IH fuel s (r + 1) t) as (self' & st' & -> & H1 & H2 & H3 & H4)
    end; [exact Hself | lia | lia |].
    exists self', st'. split; [reflexivity|].
    rewrite H1, H2, H3, H4. cbn [trace record set_world _allocations
      set_allocations].
    rewrite !count_app, Hc1, Hc2, Hc3. unfold count. simpl. lia.
Qed.


Lemma sims_one (c : Z) : sims c 1 = ["Sim-" ++ percent_d (c + 1)].
Proof. reflexivity. Qed.

Lemma allocate_loop_names globals fuel :
  forall (self : RAM World) desc r b st o self' st',
  _allocate_loop elapse globals fuel self desc r b st = (o, self', st') ->
  exists k : nat,
    deploy_names (trace st')
    = (deploy_names (trace st) ++ sims (_allocations self) k)%list
    /\ _allocations self' = _allocations self + Z.of_nat k
    /\ _allocators self' = _allocators self.
Proof.
  assert (Hstop : forall (self self' : RAM World) (st st' : State World)
            (o o' : outcome (allocation World)),
            (o, self, st) = (o', self', st') ->
            exists k : nat,
              deploy_names (trace st')
              = (deploy_names (trace st) ++ sims (_allocations self) k)%list
              /\ _allocations self' = _allocations self + Z.of_nat k
              /\ _allocators self' = _allocators self).
  { intros self self' st st' o o' [= _ <- <-]. exists 0%nat. simpl.
    rewrite app_nil_r. repeat split; lia. }
  induction fuel as [|fuel IH]; intros self desc r b st o self' st'; simpl;
    (destruct (negb (b =? -1)); [apply Hstop|]); [apply Hstop|].
  pose proof (get_scores_counts self desc st) as Hc.
  pose proof (get_scores_allocator self desc st) as Ha.
  destruct (_get_scores self desc st) as [[[[bs bc] ba]|e|] st1];
    simpl in Hc; destruct Hc as (_ & _ & _ & Hc); rewrite <- Hc;
    [|apply Hstop|apply Hstop].
  destruct (bs >=? 0) eqn:Hbs.
  - destruct ba as [a|].
    2:{ specialize (Ha bs bc st1 eq_refl). subst bs. discriminate. }
    assert (Hone : forall (st2 : State World) (o' : outcome (allocation World)),
              deploy_names (trace st2)
              = (deploy_names (trace st1)
                 ++ [("Sim-" ++ percent_d (_allocations self + 1))%string])%list ->
              (o', set_allocations self (_allocations self + 1), st2)
              = (o, self', st') ->
              exists k : nat,
                deploy_names (trace st')
                = (deploy_names (trace st1) ++ sims (_allocations self) k)%list
                /\ _allocations self' = _allocations self + Z.of_nat k
                /\ _allocators self' = _allocators self).
    { intros st2 o' Hn [= _ <- <-]. exists 1%nat. rewrite Hn, sims_one.
      repeat split. }
    destruct (deploy a _ desc (world st1)) as [[[srv|]|e|] w].
    + apply Hone. cbn [trace record set_world]. rewrite deploy_names_app.
      reflexivity.
    + destruct (r + 1 >? 10).
      * apply Hone. cbn [trace record set_world].
        rewrite !deploy_names_app. simpl. now rewrite app_nil_r.
      * intros H. apply IH in H. destruct H as (k & H1 & H2 & H3).
        exists (S k). rewrite H1, H2, H3, sims_cons.
        cbn [trace record set_world set_allocations _allocations _allocators].
        rewrite !deploy_names_app. simpl deploy_names.
        rewrite app_nil_r, <- app_assoc. repeat split. lia.
    + apply Hone. cbn [trace record set_world]. rewrite deploy_names_app.
      reflexivity.
    + apply Hone. cbn [trace record set_world]. rewrite deploy_names_app.
      reflexivity.
  - destruct (negb (bs =? -1)); [apply Hstop|].
    destruct (bound globals "time"); [|apply Hstop].
    intros H. apply IH in H. destruct H as (k & H1 & H2 & H3).
    exists k. rewrite H1. cbn [trace record set_world].
    rewrite deploy_names_app. simpl. rewrite app_nil_r. auto.
Qed.

Lemma get_instance_allocations (p : Process World) :
  _allocations (fst (get_instance host create p)) = allocations p
  /\ allocations (snd (get_instance host create p)) = allocations p
  /\ state (snd (get_instance host create p)) = state p.
Proof.
  unfold get_instance, allocations.
  destruct p as [[ram|] st]; repeat split; reflexivity.
Qed.

(** A call of the manager passes to [deploy] the names made from the next
    values of the counter, and leaves the counter at the last of them. *)
Lemma run_call_names fuel c (p : Process World) :
  let p' := snd (run_call elapse host create emit format_exc fuel c p) in
  exists k : nat,
    deploy_names (trace (state p'))
    = (deploy_names (trace (state p)) ++ sims (allocations p) k)%list
    /\ allocations p' = allocations p + Z.of_nat k.
Proof.
  assert (Hsame : forall p' : Process World,
            deploy_names (trace (state p')) = deploy_names (trace (state p)) ->
            allocations p' = allocations p ->
            exists k : nat,
              deploy_names (trace (state p'))
              = (deploy_names (trace (state p)) ++ sims (allocations p) k)%list
              /\ allocations p' = allocations p + Z.of_nat k).
  { intros p' Hn Ha. exists 0%nat. rewrite Hn, Ha. simpl.
    rewrite app_nil_r. split; [reflexivity | lia]. }
  destruct (get_instance_allocations p) as (Hg1 & Hg2 & Hg3).
  cbv zeta. destruct c as [a|i a|desc|server]; cbn [run_call snd].
  - unfold add_allocator.
    destruct (get_instance host create p) as [ram p1]. simpl in Hg1, Hg3.
    apply Hsame; simpl; [congruence | exact Hg1].
  - unfold insert_allocator.
    destruct (get_instance host create p) as [ram p1].
    simpl in Hg1, Hg2, Hg3.
    destruct (list_insert _ (_allocators ram) i a) as [allocators|];
      cbn [snd]; apply Hsame; simpl; solve [congruence | assumption].
  - unfold allocate, _allocate.
    destruct (flush_handlers (host (world (state p)))) as [e|];
      [apply Hsame; reflexivity|].
    destruct (get_instance host create p) as [ram p1]. simpl in Hg1, Hg2, Hg3.
    destruct (_allocate_loop elapse module_globals fuel ram desc 0 (-1)
                (state p1)) as [[o ram'] st'] eqn:E.
    apply allocate_loop_names in E. destruct E as (k & H1 & H2 & _).
    exists k. rewrite <- Hg1, <- Hg3.
    destruct o; simpl; unfold allocations; simpl; auto.
  - unfold release.
    destruct (cleanup server (world (state p))) as [[e|] w]; cbn [snd];
      [|apply Hsame; reflexivity].
    destruct (is_Exception e); cbn [snd]; [|apply Hsame; reflexivity].
    match goal with |- context [get_instance host create ?q] =>
      destruct (get_instance_allocations q) as (_ & Hq2 & Hq3);
      destruct (get_instance host create q) as [ram p1] end.
    simpl in Hq2, Hq3.
    destruct (emit _ (world (state p1))) as [[e1|] w1]; cbn [snd].
    + destruct (is_Exception e1); cbn [snd]; apply Hsame; simpl;
        rewrite ?deploy_names_app, ?Hq3; simpl; rewrite ?app_nil_r;
        solve [reflexivity | exact Hq2].
    + apply Hsame; simpl; rewrite ?deploy_names_app, ?Hq3; simpl;
        rewrite ?app_nil_r; solve [reflexivity | exact Hq2].
Qed.

(** C8: over any sequence of calls of the manager, the handle names passed
    to [deploy] are 'Sim-<n>' for the consecutive values of the allocation
    counter that follow its starting value, one per deploy attempt (failed
    attempts included), the counter ends at the last value used, and no name
    occurs twice. *)
Theorem handle_names_never_reused fuel calls (p : Process World) :
  let p' := run_calls elapse host create emit format_exc fuel calls p in
  exists k : nat,
    deploy_names (trace (state p'))
    = (deploy_names (trace (state p)) ++ sims (allocations p) k)%list
    /\ allocations p' = allocations p + Z.of_nat k
    /\ NoDup (sims (allocations p) k).
Proof.
  revert p. induction calls as [|c rest IH]; intros p; simpl.
  - exists 0%nat. simpl. rewrite app_nil_r. repeat split; [lia | constructor].
  - destruct (run_call_names fuel c p) as (j & Hj1 & Hj2).
    destruct (run_call elapse host create emit format_exc fuel c p)
      as [o p1]. simpl in Hj1, Hj2.
    assert (Hrest : exists k : nat,
              deploy_names
                (trace (state (run_calls elapse host create emit format_exc
                                 fuel rest p1)))
              = (deploy_names (trace (state p)) ++ sims (allocations p) k)%list
              /\ allocations (run_calls elapse host create emit format_exc
                                fuel rest p1)
                 = allocations p + Z.of_nat k
              /\ NoDup (sims (allocations p) k)).
    { destruct (IH p1) as (k & Hk1 & Hk2 & _). exists (j + k)%nat.
      rewrite Hk1, Hk2, Hj1, Hj2, sims_app, <- app_assoc.
      repeat split; [lia | rewrite <- sims_app; apply sims_NoDup]. }
    destruct o; try exact Hrest.
    exists j. repeat split; [assumption | assumption | apply sims_NoDup].
Qed.

(** C9: when the [cleanup] of a server raises an error, [release] returns
    normally: it writes a warning on the 'RAM' logger, or a line on stderr
    when writing the warning fails. *)
Theorem release_swallows_cleanup_errors server (p : Process World) e w :
  cleanup server (world (state p)) = (Some e, w) ->
  is_Exception e = true ->
  (forall message w0 e1 w1,
     emit message w0 = (Some e1, w1) -> is_Exception e1 = true) ->
  let message := "caught exception during cleanup of " ++ get_name server
                 ++ ": " ++ format_exc e in
  let text := "RAM: caught exception logging cleanup of %s: %s "
              ++ get_name server ++ " " ++ format_exc e in
  exists p',
    release host create emit format_exc server p = (Return tt, p')
    /\ ((fst (emit message w) = None
         /\ trace (state p') = (trace (state p) ++ [Log_warning message])%list)
        \/ (fst (emit message w) <> None
            /\ trace (state p')
               = (trace (state p) ++ [Print_stderr text])%list)).
Proof.
  intros Hc He Hemit. cbv zeta. unfold release. rewrite Hc, He.
  match goal with |- context [get_instance host create ?q] =>
    destruct (get_instance_allocations q) as (_ & _ & Hq);
    destruct (get_instance host create q) as [ram p1] end.
  simpl in Hq. rewrite Hq. cbn [world set_world].
  destruct (emit _ w) as [[e1|] w1] eqn:E; cbn [fst].
  - rewrite (Hemit _ _ _ _ E). eexists. split; [reflexivity|].
    right. split; [discriminate | reflexivity].
  - eexists. split; [reflexivity|]. left. split; reflexivity.
Qed.

(** Once a local allocator has been adopted (with -1 or 0), no other local
    allocator replaces it. *)
Lemma local_loop_keeps (locals : list LocalAllocator) desc (h : Host)
  (b : best World) :
  (forall la, In la locals ->
     exists score info,
       LocalAllocator_rate_resource la h desc = Return (score, info)) ->
  fst (fst b) = -1 \/ fst (fst b) = 0 ->
  forall st, host (world st) = h ->
    exists st1,
      _get_scores_loop (map (local_allocator host create) locals) desc b st
      = (Return b, st1)
      /\ world st1 = world st.
Proof.
  intros Hret Hb. induction locals as [|la rest IH]; intros st Hh.
  - exists st. split; reflexivity.
  - cbn [map _get_scores_loop local_allocator rate_resource world record].
    destruct (Hret la (or_introl eq_refl)) as (score & info & E).
    rewrite Hh, E.
    pose proof (local_score_range la h desc score info E) as Hs.
    destruct b as [[bs bc] ba]. simpl in Hb.
    replace (adopts bs score) with false
      by (destruct Hb as [-> | ->], Hs as [-> | [-> | ->]]; reflexivity).
    match goal with |- context [_get_scores_loop _ desc _ ?st'] =>
      destruct (IH (fun la' H => Hret la' (or_intror H)) st' Hh)
        as (st1 & -> & Hw) end.
    exists st1. split; [reflexivity | exact Hw].
Qed.

(** Among local allocators that all return, the first one that answers 0
    is selected when those registered before it answer -2. *)
Lemma local_loop_first (locals : list LocalAllocator) desc (h : Host) :
  forall i la info st,
    host (world st) = h ->
    (forall la', In la' locals ->
       exists score' info',
         LocalAllocator_rate_resource la' h desc = Return (score', info')) ->
    nth_error locals i = Some la ->
    LocalAllocator_rate_resource la h desc = Return (0, info) ->
    (forall j la', (j < i)%nat -> nth_error locals j = Some la' ->
       exists info',
         LocalAllocator_rate_resource la' h desc = Return (-2, info')) ->
    exists st1,
      _get_scores_loop (map (local_allocator host create) locals) desc
        (-2, None, None) st
      = (Return (0, info, Some (local_allocator host create la)), st1).
Proof.
  induction locals as [|la0 rest IH]; intros i la info st Hh Hret Hi E Hbefore.
  - destruct i; discriminate.
  - cbn [map _get_scores_loop local_allocator rate_resource world record].
    rewrite Hh. destruct i as [|i]; simpl in Hi.
    + injection Hi as ->. rewrite E.
      change (adopts (-2) 0) with true. cbv iota.
      match goal with |- context [_get_scores_loop _ desc ?b' ?st'] =>
        destruct (local_loop_keeps rest desc h b'
                    (fun la' H => Hret la' (or_intror H))
                    (or_intror eq_refl) st' Hh)
          as (st1 & -> & _) end.
      exists st1. reflexivity.
    + destruct (Hbefore 0%nat la0 ltac:(lia) eq_refl) as [info0 E0].
      rewrite E0. change (adopts (-2) (-2)) with false. cbv iota.
      apply (IH i la info); try assumption.
      * intros la' H. exact (Hret la' (or_intror H)).
      * intros j la' Hj Hn. apply (Hbefore (S j) la'); [lia | exact Hn].
Qed.


Lemma get_scores_loop_finishes allocators desc (b : best World) st :
  Forall (finishes desc) allocators ->
  fst (_get_scores_loop allocators desc b st) <> OutOfFuel.
Proof.
  intros H. revert b st. induction H as [|a rest Ha _ IH]; intros b st; simpl.
  - discriminate.
  - pose proof (proj1 (Ha (world st))) as Hr.
    destruct (rate_resource a desc (world st)) as [[[score info]|e|] w];
      simpl in *; [|discriminate|congruence].
    destruct b as [[bs bc] ba]. apply IH.
Qed.

(** The allocator a pass selects is one of the registered allocators. *)
Lemma get_scores_loop_member allocators desc (b : best World) st
  best_score best_criteria a st1 :
  _get_scores_loop allocators desc b st
  = (Return (best_score, best_criteria, Some a), st1) ->
  snd b = Some a \/ In a allocators.
Proof.
  revert b st. induction allocators as [|a0 rest IH]; intros b st; simpl.
  - intros [= -> _]. left. reflexivity.
  - destruct (rate_resource a0 desc (world st)) as [[[score info]|e|] w];
      try discriminate.
    destruct b as [[bs bc] ba]. intros H. apply IH in H.
    destruct (adopts bs score); simpl in *.
    + destruct H as [[= ->] | H]; auto.
    + destruct H as [H | H]; auto.
Qed.

(** The module as it is never waits: [_allocate] returns or raises within
    11 turns of its loop. *)
Lemma allocate_loop_finishes fuel :
  forall (self : RAM World) desc r st,
    Forall (finishes desc) (_allocators self) ->
    r <= 10 -> (Z.to_nat (10 - r) < fuel)%nat ->
    fst (fst (_allocate_loop elapse module_globals fuel self desc r (-1) st))
    <> OutOfFuel.
Proof.
  induction fuel as [|fuel IH]; intros self desc r st Hfin Hr Hfuel; [lia|].
  simpl.
  pose proof (get_scores_loop_finishes (_allocators self) desc (-2, None, None)
                (record Call_get_scores st) Hfin) as Hs.
  pose proof (get_scores_loop_member (_allocators self) desc (-2, None, None)
                (record Call_get_scores st)) as Hm.
  unfold _get_scores.
  destruct (_get_scores_loop (_allocators self) desc (-2, None, None)
              (record Call_get_scores st)) as [[[[bs bc] ba]|e|] st1];
    simpl in Hs; [|discriminate|congruence].
  destruct (bs >=? 0).
  - destruct ba as [a|]; [|discriminate].
    destruct (Hm bs bc a st1 eq_refl) as [Hin | Hin]; [discriminate|].
    rewrite Forall_forall in Hfin.
    pose proof (proj2 (Hfin a Hin (world st1))
                  (String "S" (String "i" (String "m" (String "-"
                     (percent_d (_allocations self + 1))))))) as Hd.
    destruct (deploy a _ desc (world st1)) as [[[server|]|e|] w];
      simpl in Hd; [discriminate| |discriminate|congruence].
    destruct (Z.gtb_spec (r + 1) 10); [discriminate|].
    apply IH; [apply Forall_forall; exact Hfin | lia | lia].
  - destruct (negb (bs =? -1)); discriminate.
Qed.

(** In the namespace of the module as it is, where [time] is not bound, a
    scoring pass that answers -1 makes [_allocate] raise NameError. *)
Lemma shortage_raises (fuel : nat) (self : RAM World) desc st
  best_criteria best_allocator st1 :
  _get_scores self desc st
  = (Return (-1, best_criteria, best_allocator), st1) ->
  _allocate elapse module_globals (S fuel) self desc st
  = (Raise (NameError "time"), self, st1).
Proof.
  intros E. now rewrite (allocate_shortage _ _ _ _ _ _ _ _ E).
Qed.

End ManagerProperties.

(** ** The manager on concrete allocators *)

Import Scenario.

(** A request the local host can serve is deployed there under the first
    handle name. *)
Example allocate_on_idle_host :
  fst (allocate stay this_host spawn 1 [("n_cpus", VInt 1)] (fresh idle))
  = Return (Tuple (Some (worker "Sim-1"))
                  (Some {| info_name := "Sim-1"; info_pid := 4242;
                           info_host := "localhost" |})).
Proof. reflexivity. Qed.

(** C1: [_get_scores] replaces its running best exactly under the stated
    condition, but the allocator it selects is not always the first
    registered one among those that returned the best score: with the scores
    0, 5, 0 the pass returns the score 0 with the third allocator. *)
Theorem tie_is_won_by_later_allocator :
  (forall best_score score,
     adopts best_score score = true
     <-> (best_score = -2 /\ score >= -1)
         \/ (best_score = 0 /\ score > 0)
         \/ (best_score > 0 /\ score < best_score))
  /\ scores_of [scoring "A" 0; scoring "B" 5; scoring "C" 0] [] idle
     = [0; 5; 0]
  /\ fst (_get_scores (manager [scoring "A" 0; scoring "B" 5; scoring "C" 0])
            [] (start idle))
     = Return (0, None, Some (scoring "C" 0)).
Proof.
  split; [exact adopts_spec | split; reflexivity].
Qed.

(** C2: an allocator that can serve does not always win: after a first
    allocator that answers -1, one that answers 0 is not adopted; and an
    allocator that answers -2 replaces one that answered 5. *)
Theorem server_loses_to_allocator_that_cannot_serve :
  (scores_of [scoring "A" (-1); scoring "B" 0] [] idle = [-1; 0]
   /\ fst (_get_scores (manager [scoring "A" (-1); scoring "B" 0]) []
             (start idle))
      = Return (-1, None, Some (scoring "A" (-1))))
  /\ (scores_of [scoring "A" 5; scoring "B" (-2)] [] idle = [5; -2]
      /\ fst (_get_scores (manager [scoring "A" 5; scoring "B" (-2)]) []
                (start idle))
         = Return (-2, None, Some (scoring "B" (-2)))).
Proof.
  repeat split.
Qed.

(** C3: the name [time] is not bound in the module, so when the scoring
    pass answers -1 (here: the local allocator alone, on a host whose load is
    at or above [max_load]) [allocate] raises NameError instead of sleeping
    and scoring again. *)
Theorem shortage_raises_NameError :
  bound module_globals "time" = false
  /\ fst (_get_scores (RAM_init this_host spawn) [] (start busy))
     = Return (-1,
               Some [("loadavgs", CLoad (3 # 1, 2 # 1, 1 # 1)%Q);
                     ("max_load", CNum (2 # 1)%Q)],
               Some (local_allocator this_host spawn LocalAllocator_default))
  /\ forall fuel,
       fst (allocate stay this_host spawn (S fuel) [] (fresh busy))
       = Raise (NameError "time").
Proof.
  split; [reflexivity | split; [reflexivity | intros fuel; reflexivity]].
Qed.


Lemma unsupported_request_fails_at_once_witness :
  let self := RAM_init this_host spawn in
  let desc := [("localhost", VBool false)] in
  let st1 := {| world := idle;
                trace := [Call_get_scores;
                          Call_rate_resource "LocalAllocator"] |} in
  _get_scores self desc (start idle)
  = (Return (-2, None, None), st1)
  /\ _allocate stay module_globals 1 self desc (start idle)
     = (Return (Tuple None None), self, st1)
  /\ count is_get_scores (trace st1)
     = (count is_get_scores (trace (start idle)) + 1)%nat
  /\ count is_deploy (trace st1) = count is_deploy (trace (start idle))
  /\ count is_sleep (trace st1) = count is_sleep (trace (start idle)).
Proof.
  cbv zeta. split; [reflexivity|].
  apply (unsupported_request_fails_at_once Host stay module_globals 0
           (RAM_init this_host spawn) [("localhost", VBool false)]
           (start idle) None None).
  reflexivity.
Defined.

(** C6 as first stated fails: a check that comes before the unrecognized
    key can raise, and then no score is returned.  The requests are
    {'orphan_modules': [''], 'memory': 1024} and
    {'required_distributions': ['numpy'], 'memory': 1024}, whose items a
    Python 2 dict yields in this order: [__import__('')] raises ValueError
    and a string has no [as_requirement]. *)
Lemma unrecognized_key_request_can_raise :
  LocalAllocator_rate_resource LocalAllocator_default idle
    [("orphan_modules", VStrs [""]); ("memory", VInt 1024)]
  = Raise (OtherError "ValueError")
  /\ LocalAllocator_rate_resource LocalAllocator_default idle
       [("required_distributions", VStrs ["numpy"]); ("memory", VInt 1024)]
     = Raise AttributeError.
Proof.
  split; reflexivity.
Qed.

Lemma unrecognized_key_is_unsupported_witness :
  let desc := [("n_cpus", VInt 1); ("orphan_modules", VStrs ["os"]);
               ("gpu", VBool true)] in
  (exists item, In item desc /\ recognized (fst item) = false)
  /\ checks_return LocalAllocator_default idle desc = true
  /\ exists info,
       LocalAllocator_rate_resource LocalAllocator_default idle desc
       = Return (-2, Some info)
       /\ reports_load (Some info) = false.
Proof.
  cbv zeta.
  assert (Hbad : exists item,
            In item [("n_cpus", VInt 1); ("orphan_modules", VStrs ["os"]);
                     ("gpu", VBool true)]
            /\ recognized (fst item) = false).
  { exists ("gpu", VBool true). split; [simpl; auto | reflexivity]. }
  split; [exact Hbad | split; [reflexivity|]].
  apply (proj2 (proj2 (unrecognized_key_is_unsupported LocalAllocator_default
                         idle _ Hbad))).
  reflexivity.
Defined.

Lemma load_decides_when_all_keys_pass_witness :
  let desc := [("n_cpus", VInt 1); ("localhost", VBool true);
               ("python_version", VStr "2.6")] in
  forallb (passes LocalAllocator_default busy) desc = true
  /\ LocalAllocator_rate_resource LocalAllocator_default busy desc
     = Return (-1, Some [("loadavgs", CLoad (3 # 1, 2 # 1, 1 # 1)%Q);
                         ("max_load", CNum (2 # 1)%Q)]).
Proof.
  cbv zeta. split; [reflexivity|].
  refine (proj2 (proj2 (load_decides_when_all_keys_pass LocalAllocator_default
                          busy _ _) (3 # 1)%Q (2 # 1)%Q (1 # 1)%Q _) _).
  - reflexivity.
  - reflexivity.
  - simpl. unfold Qle. simpl. lia.
Defined.

Lemma release_swallows_cleanup_errors_witness :
  cleanup stuck_worker (world (state (fresh idle)))
  = (Some (OtherError "RuntimeError"), idle)
  /\ is_Exception (OtherError "RuntimeError") = true
  /\ exists p',
       release this_host spawn emit_fails exc_text stuck_worker (fresh idle)
       = (Return tt, p')
       /\ trace (state p')
          = [Print_stderr
               "RAM: caught exception logging cleanup of %s: %s Sim-1 RuntimeError"].
Proof.
  split; [reflexivity | split; [reflexivity|]].
  destruct (release_swallows_cleanup_errors Host this_host spawn emit_fails
              exc_text stuck_worker (fresh idle) (OtherError "RuntimeError")
              idle eq_refl eq_refl) as (p' & E & H).
  - intros message w0 e1 w1 [= <- _]. reflexivity.
  - exists p'. split; [exact E|].
    destruct H as [[H _] | [_ H]]; [discriminate H | exact H].
Defined.



(** ** Further properties of LocalAllocator.rate_resource *)

Lemma rate_items_fail (self : LocalAllocator) (host : Host)
  (desc : resource_desc) :
  forallb (passes self host) desc = false ->
  rate_items self host desc <> None.
Proof.
  induction desc as [|item rest IH]; simpl; [discriminate|].
  intros H. destruct (rate_item self host item) eqn:E; [discriminate|].
  apply passes_iff in E. rewrite E in H. exact (IH H).
Qed.


(** X2: the criteria name the first item, in the order of iteration, that
    fails its check: when that item's key is not one of the two availability
    checks, the answer is -2 with exactly that key and its value, whatever
    follows it in the request. *)
Theorem criteria_name_first_failing_item (self : LocalAllocator) (host : Host)
  (before after : resource_desc) (key : string) (v : value) :
  forallb (passes self host) before = true ->
  passes self host (key, v) = false ->
  key <> "required_distributions" ->
  key <> "orphan_modules" ->
  LocalAllocator_rate_resource self host (before ++ (key, v) :: after)%list
  = Return (-2, Some [(key, CValue v)]).
Proof.
  intros Hbefore Hfail Hrd Hom. unfold LocalAllocator_rate_resource.
  assert (Hitems : rate_items self host (before ++ (key, v) :: after)%list
                   = Some (Return (-2, Some [(key, CValue v)]))).
  { induction before as [|item rest IH]; simpl in *.
    - apply String.eqb_neq in Hrd, Hom.
      unfold passes in Hfail. unfold rate_item.
      destruct (String.eqb key "localhost").
      { now rewrite Hfail. }
      destruct (String.eqb key "n_cpus").
      { apply negb_false_iff in Hfail. now rewrite Hfail. }
      rewrite Hrd, Hom in *.
      destruct (String.eqb key "python_version"); [|reflexivity].
      apply negb_false_iff in Hfail. now rewrite Hfail.
    - apply andb_prop in Hbefore. destruct Hbefore as [Hitem Hrest].
      apply passes_iff in Hitem. rewrite Hitem. exact (IH Hrest). }
  now rewrite Hitems.
Qed.

Lemma In_insert_sorted (x y : string) (l : list string) :
  In y (insert_sorted x l) <-> y = x \/ In y l.
Proof.
  induction l as [|z l IH]; simpl.
  - intuition.
  - destruct (String.leb x z); simpl; rewrite ?IH; intuition.
Qed.

Lemma In_sorted (y : string) (l : list string) : In y (sorted l) <-> In y l.
Proof.
  unfold sorted. induction l as [|x l IH]; simpl; [tauto|].
  rewrite In_insert_sorted, IH. intuition.
Qed.

(** The imports that raise ImportError. *)
Lemma import_modules_return (host : Host) (modules : list string) :
  (forall m e, In m modules -> import_module host m = Some e ->
               e = ImportError) ->
  forall not_found,
    import_modules host modules not_found
    = Return (not_found
              ++ filter (fun m => match import_module host m with
                                  | Some _ => true
                                  | None => false
                                  end) modules)%list.
Proof.
  induction modules as [|m rest IH]; intros Hall not_found; simpl.
  - now rewrite app_nil_r.
  - assert (Hrest : forall m0 e, In m0 rest ->
                      import_module host m0 = Some e -> e = ImportError)
      by (intros m0 e H; apply Hall; right; exact H).
    destruct (import_module host m) as [e|] eqn:E.
    + rewrite (Hall m e (or_introl eq_refl) E).
      rewrite (IH Hrest). now rewrite <- app_assoc.
    + exact (IH Hrest not_found).
Qed.

Lemma import_modules_raise (host : Host) (modules : list string) :
  (exists m e, In m modules /\ import_module host m = Some e
               /\ e <> ImportError) ->
  forall not_found,
    exists m e, In m modules /\ import_module host m = Some e
                /\ e <> ImportError
                /\ import_modules host modules not_found = Raise e.
Proof.
  induction modules as [|m rest IH]; intros (m0 & e0 & Hin & E0 & Hne)
    not_found; [contradiction|]. simpl.
  destruct (import_module host m) as [e|] eqn:E.
  - destruct e;
      try (eexists m, _; repeat split;
           [left; reflexivity | exact E | discriminate]).
    destruct Hin as [-> | Hin]; [congruence|].
    destruct (IH (ex_intro _ m0 (ex_intro _ e0 (conj Hin (conj E0 Hne))))
                (not_found ++ [m])%list)
      as (m1 & e1 & H1 & H2 & H3 & H4).
    exists m1, e1. repeat split; auto.
  - destruct Hin as [-> | Hin]; [congruence|].
    destruct (IH (ex_intro _ m0 (ex_intro _ e0 (conj Hin (conj E0 Hne))))
                not_found)
      as (m1 & e1 & H1 & H2 & H3 & H4).
    exists m1, e1. repeat split; auto.
Qed.

(** X3: [check_orphan_modules] answers (0, None) when every requested module
    is imported; when some imports raise ImportError and none raises
    anything else, it answers -2 with, under 'orphan_modules', exactly the
    requested modules whose import raised; and when the import of a
    requested module raises something else (ValueError for the empty name,
    an error in the module's own code), such an exception propagates. *)
Theorem orphan_modules_reports_missing (host : Host) (modules : list string) :
  ((forall m, In m modules -> import_module host m = None) ->
   check_orphan_modules host (VStrs modules) = Return (0, None))
  /\ ((forall m e, In m modules -> import_module host m = Some e ->
                   e = ImportError) ->
      (exists m, In m modules /\ import_module host m = Some ImportError) ->
      exists names,
        check_orphan_modules host (VStrs modules)
        = Return (-2, Some [("orphan_modules", CNames names)])
        /\ forall m, In m names
                     <-> In m modules
                         /\ import_module host m = Some ImportError)
  /\ ((exists m e, In m modules /\ import_module host m = Some e
                   /\ e <> ImportError) ->
      exists m e,
        In m modules /\ import_module host m = Some e /\ e <> ImportError
        /\ check_orphan_modules host (VStrs modules) = Raise e).
Proof.
  unfold check_orphan_modules.
  set (names := filter (fun m => match import_module host m with
                                 | Some _ => true
                                 | None => false
                                 end) (sorted modules)).
  split; [|split].
  - intros Hall.
    rewrite import_modules_return.
    + fold names. assert (names = []) as ->; [|reflexivity].
      destruct names as [|m names'] eqn:E; [reflexivity|]. exfalso.
      assert (Hin : In m names) by (rewrite E; left; reflexivity).
      unfold names in Hin. apply filter_In in Hin. destruct Hin as [Hin Hm].
      apply (proj1 (In_sorted _ _)) in Hin. now rewrite (Hall m Hin) in Hm.
    + intros m e Hin E. apply (proj1 (In_sorted _ _)) in Hin.
      rewrite (Hall m Hin) in E. discriminate.
  - intros Hall (m & Hin & Hm).
    assert (Hnames : forall m0, In m0 names
                       <-> In m0 modules
                           /\ import_module host m0 = Some ImportError).
    { intros m0. unfold names. rewrite filter_In, In_sorted. split.
      - intros [H0 H1]. split; [exact H0|].
        destruct (import_module host m0) as [e|] eqn:E; [|discriminate].
        now rewrite (Hall m0 e H0 E).
      - intros [H0 ->]. auto. }
    exists names. split; [|exact Hnames].
    rewrite import_modules_return.
    + fold names. simpl. destruct names as [|m' names'] eqn:E;
        [|reflexivity].
      exfalso. exact (proj2 (Hnames m) (conj Hin Hm)).
    + intros m0 e H0. apply Hall. exact (proj1 (In_sorted _ _) H0).
  - intros (m & e & Hin & E & Hne).
    assert (Hex : exists m e, In m (sorted modules)
                    /\ import_module host m = Some e /\ e <> ImportError).
    { exists m, e. split; [exact (proj2 (In_sorted _ _) Hin) | auto]. }
    destruct (import_modules_raise host (sorted modules) Hex [])
      as (m1 & e1 & H1 & H2 & H3 & H4).
    exists m1, e1. rewrite H4. apply (proj1 (In_sorted _ _)) in H1. auto.
Qed.

(** ** Further properties of a scoring pass *)

Section PassProperties.

Variable World : Type.

(** A pass in which every allocator returns a rating is the fold of the
    update rule over the ratings, and leaves the world as the ratings left
    it. *)
Lemma get_scores_loop_select (allocators : list (Allocator World)) desc :
  forall (b : best World) st rs w',
    rate_all allocators desc (world st) = (Return rs, w') ->
    exists st',
      _get_scores_loop allocators desc b st
      = (Return (select b (combine rs allocators)), st')
      /\ world st' = w'.
Proof.
  induction allocators as [|a rest IH]; intros b st rs w'; simpl.
  - intros [= <- <-]. exists st. split; reflexivity.
  - destruct (rate_resource a desc (world st)) as [[[score info]|e|] w1];
      try discriminate.
    destruct (rate_all rest desc w1) as [[rs'|e|] w2] eqn:E; try discriminate.
    intros [= <- <-].
    destruct (IH (adopt b (score, info) a)
                (set_world w1 (record (Call_rate_resource (name a)) st))
                rs' w2 E) as (st' & E' & Hw).
    exists st'. split; [|exact Hw].
    destruct b as [[bs bc] ba]. simpl in *. exact E'.
Qed.

Lemma get_scores_select (self : RAM World) desc st rs w' :
  rate_all (_allocators self) desc (world st) = (Return rs, w') ->
  exists st',
    _get_scores self desc st
    = (Return (select (-2, None, None) (combine rs (_allocators self))), st')
    /\ world st' = w'.
Proof.
  intros E. unfold _get_scores.
  exact (get_scores_loop_select (_allocators self) desc (-2, None, None)
           (record Call_get_scores st) rs w' E).
Qed.

Lemma rate_all_length (allocators : list (Allocator World)) desc :
  forall w rs w',
    rate_all allocators desc w = (Return rs, w') ->
    List.length rs = List.length allocators.
Proof.
  induction allocators as [|a rest IH]; intros w rs w'; simpl.
  - intros [= <- _]. reflexivity.
  - destruct (rate_resource a desc w) as [[r|e|] w1]; try discriminate.
    destruct (rate_all rest desc w1) as [[rs'|e|] w2] eqn:E; try discriminate.
    intros [= <- _]. simpl. f_equal. exact (IH _ _ _ E).
Qed.

(** Once an allocator has been adopted the running best names one. *)
Lemma select_keeps_allocator (rated : list (rating * Allocator World)) :
  forall (b : best World), snd b <> None -> snd (select b rated) <> None.
Proof.
  induction rated as [|[r a] rest IH]; intros b Hb; simpl; [exact Hb|].
  apply IH. destruct b as [[bs bc] ba]. simpl.
  destruct (adopts bs (fst r)); [discriminate | exact Hb].
Qed.

Lemma select_sentinel_none (rated : list (rating * Allocator World)) :
  snd (select (-2, None, None) rated) = None
  <-> Forall (fun ra => fst (fst ra) < -1) rated.
Proof.
  induction rated as [|[[score info] a] rest IH]; simpl.
  - split; [constructor | reflexivity].
  - destruct (adopts (-2) score) eqn:E.
    + split.
      * intros H. exfalso. revert H. apply select_keeps_allocator. discriminate.
      * intros H. inversion H as [|x l Hs _]; subst. simpl in Hs.
        apply adopts_spec in E. lia.
    + rewrite IH. split.
      * intros H. constructor; [|exact H]. simpl.
        destruct (Z.lt_ge_cases score (-1)) as [Hlt|Hge]; [exact Hlt|].
        assert (adopts (-2) score = true) by (apply adopts_spec; lia).
        congruence.
      * intros H. inversion H; assumption.
Qed.

Lemma select_sentinel_unusable (rated : list (rating * Allocator World)) :
  Forall (fun ra => fst (fst ra) < -1) rated ->
  select (-2, None, None) rated = (-2, None, None).
Proof.
  induction 1 as [|[[score info] a] rest Hs _ IH]; simpl; [reflexivity|].
  simpl in Hs.
  replace (adopts (-2) score) with false; [exact IH|].
  symmetry. destruct (adopts (-2) score) eqn:E; [|reflexivity].
  apply adopts_spec in E. lia.
Qed.

(** X4: in a pass in which every allocator returns a rating, no allocator
    is selected exactly when every score is below -1, and the pass then
    returns the sentinel (-2, None, None). *)
Theorem no_allocator_iff_all_scores_below_minus_1 (self : RAM World) desc st
  rs w' :
  rate_all (_allocators self) desc (world st) = (Return rs, w') ->
  exists best_score best_criteria best_allocator st',
    _get_scores self desc st
    = (Return (best_score, best_criteria, best_allocator), st')
    /\ (best_allocator = None <-> Forall (fun r => fst r < -1) rs)
    /\ (best_allocator = None -> best_score = -2 /\ best_criteria = None).
Proof.
  intros E. destruct (get_scores_select self desc st rs w' E) as (st' & -> & _).
  pose proof (rate_all_length _ _ _ _ _ E) as Hlen.
  pose proof (select_sentinel_none (combine rs (_allocators self))) as Hnone.
  assert (Hall : Forall (fun ra : rating * Allocator World =>
                           fst (fst ra) < -1) (combine rs (_allocators self))
                 <-> Forall (fun r : rating => fst r < -1) rs).
  { clear -Hlen. revert Hlen. generalize (_allocators self) as l.
    induction rs as [|r rs IH]; intros [|a l] Hlen; simpl in *;
      try discriminate.
    - split; constructor.
    - injection Hlen as Hlen. specialize (IH l Hlen).
      split; intros H; inversion H; subst; constructor; simpl in *;
        tauto. }
  destruct (select (-2, None, None) (combine rs (_allocators self)))
    as [[bs bc] ba] eqn:S.
  exists bs, bc, ba, st'. simpl in Hnone.
  split; [reflexivity|]. split; [rewrite <- Hall; exact Hnone|].
  intros ->.
  pose proof (select_sentinel_unusable _ (proj1 Hnone eq_refl)) as S'.
  rewrite S in S'. injection S' as -> ->. auto.
Qed.

Lemma nth_error_combine {A B : Type} (l : list A) (l' : list B) :
  forall i x y,
    nth_error (combine l l') i = Some (x, y)
    <-> nth_error l i = Some x /\ nth_error l' i = Some y.
Proof.
  revert l'. induction l as [|a l IH]; intros [|b l'] [|i] x y; simpl;
    try (split; [discriminate | intros [H1 H2]; discriminate]).
  - split; [intros [= -> ->]; auto | intros [[= ->] [= ->]]; reflexivity].
  - apply IH.
Qed.

Lemma select_member (rated : list (rating * Allocator World)) :
  forall b : best World,
    select b rated = b
    \/ exists i r a,
         nth_error rated i = Some (r, a)
         /\ select b rated = (fst r, snd r, Some a).
Proof.
  induction rated as [|[r a] rest IH]; intros b; simpl; [left; reflexivity|].
  destruct (IH (adopt b r a)) as [E | (i & r' & a' & Hi & E)].
  - rewrite E. destruct b as [[bs bc] ba]. simpl.
    destruct (adopts bs (fst r)); [right | left; reflexivity].
    exists 0%nat, r, a. split; reflexivity.
  - right. exists (S i), r', a'. split; assumption.
Qed.

(** X5: the allocator a pass selects is a registered one, and the score and
    the criteria the pass returns are the ones that allocator returned in
    this pass. *)
Theorem selected_allocator_returned_the_best (self : RAM World) desc st rs w'
  best_score best_criteria a st' :
  rate_all (_allocators self) desc (world st) = (Return rs, w') ->
  _get_scores self desc st
  = (Return (best_score, best_criteria, Some a), st') ->
  exists i,
    nth_error (_allocators self) i = Some a
    /\ nth_error rs i = Some (best_score, best_criteria).
Proof.
  intros E G. destruct (get_scores_select self desc st rs w' E) as (st1 & G1 & _).
  rewrite G1 in G. injection G as S _.
  destruct (select_member (combine rs (_allocators self)) (-2, None, None))
    as [S1 | (i & r & a' & Hi & S1)]; rewrite S1 in S.
  - discriminate.
  - injection S as <- <- <-. exists i.
    apply nth_error_combine in Hi. destruct r. tauto.
Qed.

Lemma select_stays (rated : list (rating * Allocator World)) :
  forall b : best World,
    fst (fst b) = -1 \/ fst (fst b) = 0 ->
    Forall (fun ra => fst (fst ra) <= 0) rated ->
    select b rated = b.
Proof.
  induction rated as [|[r a] rest IH]; intros b Hb Hall; simpl;
    [reflexivity|].
  inversion Hall as [|x l Hr Hrest]; subst. simpl in Hr.
  destruct b as [[bs bc] ba]. simpl in *.
  replace (adopts bs (fst r)) with false; [exact (IH (bs, bc, ba) Hb Hrest)|].
  symmetry. destruct (adopts bs (fst r)) eqn:E; [|reflexivity].
  apply adopts_spec in E. lia.
Qed.

Lemma select_first_usable (rated : list (rating * Allocator World)) :
  forall i score info a,
    Forall (fun ra => fst (fst ra) <= 0) rated ->
    nth_error rated i = Some ((score, info), a) ->
    -1 <= score ->
    (forall j ra, (j < i)%nat -> nth_error rated j = Some ra ->
                  fst (fst ra) < -1) ->
    select (-2, None, None) rated = (score, info, Some a).
Proof.
  induction rated as [|[r0 a0] rest IH]; intros i score info a Hall Hi Hs Hb.
  - destruct i; discriminate.
  - inversion Hall as [|x l Hr Hrest]; subst. simpl in Hr.
    destruct i as [|i]; simpl in *.
    + injection Hi as -> ->. simpl.
      replace (adopts (-2) score) with true
        by (symmetry; apply adopts_spec; lia).
      simpl in Hr. apply select_stays; [simpl; lia | exact Hrest].
    + specialize (Hb 0%nat (r0, a0) ltac:(lia) eq_refl) as H0. simpl in H0.
      replace (adopts (-2) (fst r0)) with false.
      * apply (IH i); try assumption.
        intros j ra Hj Hn. apply (Hb (S j) ra); [lia | exact Hn].
      * symmetry. destruct (adopts (-2) (fst r0)) eqn:E; [|reflexivity].
        apply adopts_spec in E. lia.
Qed.

(** X6: in a pass in which no allocator returns a positive score, the
    allocator selected is the first registered one whose score is at least
    -1, with the score and the criteria it returned. *)
Theorem first_usable_wins_without_estimates (self : RAM World) desc st rs w'
  i score info a :
  rate_all (_allocators self) desc (world st) = (Return rs, w') ->
  Forall (fun r => fst r <= 0) rs ->
  nth_error rs i = Some (score, info) ->
  nth_error (_allocators self) i = Some a ->
  -1 <= score ->
  (forall j r, (j < i)%nat -> nth_error rs j = Some r -> fst r < -1) ->
  exists st',
    _get_scores self desc st = (Return (score, info, Some a), st')
    /\ world st' = w'.
Proof.
  intros E Hall Hi Ha Hs Hbefore.
  destruct (get_scores_select self desc st rs w' E) as (st' & -> & Hw).
  exists st'. split; [|exact Hw]. f_equal. f_equal.
  apply (select_first_usable _ i); try assumption.
  - apply Forall_forall. intros [r a0] Hin.
    apply in_combine_l in Hin. rewrite Forall_forall in Hall.
    exact (Hall r Hin).
  - apply nth_error_combine. auto.
  - intros j [r a0] Hj Hn. apply nth_error_combine in Hn.
    exact (Hbefore j r Hj (proj1 Hn)).
Qed.

End PassProperties.

(** ** Further properties of _allocate *)

Section AllocateProperties.

Variable World : Type.
Variable elapse : World -> World.

Lemma get_scores_loop_raises (allocators : list (Allocator World)) desc :
  forall (b : best World) st e w',
    rate_all allocators desc (world st) = (Raise e, w') ->
    exists st',
      _get_scores_loop allocators desc b st = (Raise e, st')
      /\ world st' = w'
      /\ count is_deploy (trace st') = count is_deploy (trace st)
      /\ count is_sleep (trace st') = count is_sleep (trace st).
Proof.
  induction allocators as [|a rest IH]; intros b st e w'; simpl;
    [discriminate|].
  assert (Hrec : forall k, (forall x, k (Call_rate_resource x) = false) ->
                   count k (trace st ++ [Call_rate_resource (name a)])
                   = count k (trace st)).
  { intros k Hk. rewrite count_app. unfold count at 2. simpl. rewrite Hk.
    simpl. lia. }
  destruct (rate_resource a desc (world st)) as [[[score info]|e0|] w1].
  - destruct (rate_all rest desc w1) as [[rs'|e1|] w2] eqn:E; try discriminate.
    intros [= <- <-].
    destruct (IH (adopt b (score, info) a)
                (set_world w1 (record (Call_rate_resource (name a)) st))
                e1 w2 E) as (st' & E' & Hw & Hd & Hs).
    exists st'. destruct b as [[bs bc] ba]. simpl in *.
    rewrite Hrec in Hd, Hs by reflexivity. auto.
  - intros [= <- <-]. eexists. split; [reflexivity|]. simpl.
    rewrite !Hrec by reflexivity. auto.
  - discriminate.
Qed.

(** X7: an exception raised by an allocator's [rate_resource] is not
    handled.  In whichever turn of the loop of [_allocate] it is raised
    (with any number of deployment retries behind), it ends the pass and
    propagates out of the loop, which makes no further deploy attempt and
    leaves the allocation counter where the earlier turns left it, whatever
    the other allocators would have answered. *)
Theorem rating_exception_aborts_allocate globals fuel (self : RAM World)
  desc deployment_retries st e w' :
  rate_all (_allocators self) desc (world st) = (Raise e, w') ->
  exists st',
    _allocate_loop elapse globals (S fuel) self desc deployment_retries (-1)
      st
    = (Raise e, self, st')
    /\ world st' = w'
    /\ count is_deploy (trace st') = count is_deploy (trace st)
    /\ count is_sleep (trace st') = count is_sleep (trace st).
Proof.
  intros E.
  destruct (get_scores_loop_raises (_allocators self) desc (-2, None, None)
              (record Call_get_scores st) e w' E)
    as (st' & G & Hw & Hd & Hs).
  exists st'. simpl. unfold _get_scores. rewrite G.
  cbn [trace record] in Hd, Hs. rewrite !count_app in Hd, Hs.
  change (count is_deploy [Call_get_scores]) with 0%nat in Hd.
  change (count is_sleep [Call_get_scores]) with 0%nat in Hs.
  repeat split; [exact Hw | lia | lia].
Qed.

(** X8: an exception raised by [deploy] is not handled either.  In
    whichever turn of the loop of [_allocate] the selected allocator's
    deploy raises (with any number of deployment retries behind), the
    exception propagates out of the loop without a further retry: that turn
    makes exactly one deploy call, the last event of the run, and the
    counter value drawn for the handle name stays used. *)
Theorem deploy_exception_propagates globals fuel (self : RAM World) desc
  deployment_retries st best_score best_criteria a st1 e w :
  _get_scores self desc st = (Return (best_score, best_criteria, Some a), st1) ->
  0 <= best_score ->
  deploy a ("Sim-" ++ percent_d (_allocations self + 1)) desc (world st1)
  = (Raise e, w) ->
  exists self' st',
    _allocate_loop elapse globals (S fuel) self desc deployment_retries (-1)
      st
    = (Raise e, self', st')
    /\ _allocations self' = _allocations self + 1
    /\ _allocators self' = _allocators self
    /\ trace st'
       = (trace st1
          ++ [Call_deploy (name a)
                ("Sim-" ++ percent_d (_allocations self + 1))%string])%list
    /\ world st' = w.
Proof.
  intros G Hbs D. simpl. rewrite G.
  replace (best_score >=? 0) with true by (symmetry; apply Z.geb_le; lia).
  simpl in D. rewrite D. eexists _, _. split; [reflexivity|].
  repeat split.
Qed.

Lemma allocate_loop_attempts globals fuel :
  forall (self : RAM World) desc r b st o self' st',
    r <= 10 ->
    _allocate_loop elapse globals fuel self desc r b st = (o, self', st') ->
    exists k : nat,
      count is_deploy (trace st') = (count is_deploy (trace st) + k)%nat
      /\ _allocations self' = _allocations self + Z.of_nat k
      /\ r + Z.of_nat k <= 11.
Proof.
  assert (Hstop : forall (self self' : RAM World) (st st' : State World)
            (o o' : outcome (allocation World)) r,
            r <= 10 ->
            (o, self, st) = (o', self', st') ->
            exists k : nat,
              count is_deploy (trace st')
              = (count is_deploy (trace st) + k)%nat
              /\ _allocations self' = _allocations self + Z.of_nat k
              /\ r + Z.of_nat k <= 11).
  { intros self self' st st' o o' r Hr [= _ <- <-]. exists 0%nat.
    repeat split; lia. }
  induction fuel as [|fuel IH]; intros self desc r b st o self' st' Hr; simpl;
    (destruct (negb (b =? -1)); [apply Hstop; exact Hr|]);
    [apply Hstop; exact Hr|].
  pose proof (get_scores_counts World self desc st) as Hc.
  pose proof (get_scores_allocator World self desc st) as Ha.
  destruct (_get_scores self desc st) as [[[[bs bc] ba]|e|] st1];
    simpl in Hc; destruct Hc as (_ & Hc & _ & _); rewrite <- Hc;
    [|apply Hstop; exact Hr|apply Hstop; exact Hr].
  destruct (bs >=? 0) eqn:Hbs.
  - destruct ba as [a|].
    2:{ specialize (Ha bs bc st1 eq_refl). subst bs. discriminate. }
    assert (Hone : forall (st2 : State World) (o' : outcome (allocation World)),
              count is_deploy (trace st2)
              = (count is_deploy (trace st1) + 1)%nat ->
              (o', set_allocations self (_allocations self + 1), st2)
              = (o, self', st') ->
              exists k : nat,
                count is_deploy (trace st')
                = (count is_deploy (trace st1) + k)%nat
                /\ _allocations self' = _allocations self + Z.of_nat k
                /\ r + Z.of_nat k <= 11).
    { intros st2 o' Hn [= _ <- <-]. exists 1%nat. rewrite Hn.
      cbn [_allocations set_allocations]. repeat split; lia. }
    destruct (deploy a _ desc (world st1)) as [[[srv|]|e|] w].
    + apply Hone. cbn [trace record set_world]. rewrite count_app.
      reflexivity.
    + destruct (Z.gtb_spec (r + 1) 10) as [Hgt|Hle].
      * apply Hone. cbn [trace record set_world].
        rewrite !count_app. unfold count. simpl. lia.
      * intros H. apply IH in H; [|lia]. destruct H as (k & H1 & H2 & H3).
        exists (S k). rewrite H1, H2.
        cbn [trace record set_world set_allocations _allocations].
        rewrite !count_app. unfold count.
        cbn [filter is_deploy List.length]. repeat split; lia.
    + apply Hone. cbn [trace record set_world]. rewrite count_app.
      reflexivity.
    + apply Hone. cbn [trace record set_world]. rewrite count_app.
      reflexivity.
  - destruct (negb (bs =? -1)); [apply Hstop; exact Hr|].
    destruct (bound globals "time"); [|apply Hstop; exact Hr].
    intros H. apply IH in H; [|exact Hr]. destruct H as (k & H1 & H2 & H3).
    exists k. rewrite H1. cbn [trace record set_world].
    rewrite count_app. unfold count. simpl. repeat split; lia.
Qed.

(** X9: one call of [_allocate] makes at most 11 deploy attempts, however
    long it runs and whether or not it sleeps in between; the allocation
    counter advances by exactly the number of attempts made. *)
Theorem allocate_makes_at_most_11_attempts globals fuel (self : RAM World)
  desc st :
  let '(_, self', st') := _allocate elapse globals fuel self desc st in
  exists k : nat,
    (k <= 11)%nat
    /\ count is_deploy (trace st') = (count is_deploy (trace st) + k)%nat
    /\ _allocations self' = _allocations self + Z.of_nat k.
Proof.
  unfold _allocate.
  destruct (_allocate_loop elapse globals fuel self desc 0 (-1) st)
    as [[o self'] st'] eqn:E.
  apply allocate_loop_attempts in E; [|lia].
  destruct E as (k & H1 & H2 & H3). exists k. repeat split; [lia | | ]; auto.
Qed.

Lemma allocate_loop_returns_pair globals fuel :
  forall (self : RAM World) desc r st v self' st',
    _allocate_loop elapse globals fuel self desc r (-1) st
    = (Return v, self', st') ->
    v = Tuple None None
    \/ exists server,
         v = Tuple (Some server)
               (Some {| info_name := get_name server;
                        info_pid := get_pid server;
                        info_host := get_host server |}).
Proof.
  induction fuel as [|fuel IH]; intros self desc r st v self' st'; simpl;
    [discriminate|].
  destruct (_get_scores self desc st) as [[[[bs bc] ba]|e|] st1];
    try discriminate.
  destruct (bs >=? 0).
  - destruct ba as [a|]; [|discriminate].
    destruct (deploy a _ desc (world st1)) as [[[srv|]|e|] w];
      try discriminate.
    + intros [= <- _ _]. right. exists srv. reflexivity.
    + destruct (r + 1 >? 10); [intros [= <- _ _]; left; reflexivity|].
      apply IH.
  - destruct (Z.eqb_spec bs (-1)) as [-> | Hne]; simpl.
    + destruct (bound globals "time"); [apply IH | discriminate].
    + intros [= <- _ _]. left. reflexivity.
Qed.

(** X10: whatever [_allocate] returns is a pair: (None, None), or a server
    with the dict of that server's name, pid and host; control never leaves
    the [while] loop at its end, which would return a bare None. *)
Theorem allocate_returns_a_pair globals fuel (self : RAM World) desc st
  v self' st' :
  _allocate elapse globals fuel self desc st = (Return v, self', st') ->
  v = Tuple None None
  \/ exists server,
       v = Tuple (Some server)
             (Some {| info_name := get_name server;
                      info_pid := get_pid server;
                      info_host := get_host server |}).
Proof.
  unfold _allocate. apply allocate_loop_returns_pair.
Qed.

(** X11: in the module as it is, [_allocate] comes back within 11 turns of
    its loop, with a result or with an exception, as long as the methods of
    the registered allocators come back. *)
Theorem allocate_comes_back fuel (self : RAM World) desc st :
  Forall (finishes desc) (_allocators self) ->
  (11 <= fuel)%nat ->
  fst (fst (_allocate elapse module_globals fuel self desc st)) <> OutOfFuel.
Proof.
  intros Hfin Hfuel. unfold _allocate.
  apply allocate_loop_finishes; [exact Hfin | lia | simpl; lia].
Qed.

End AllocateProperties.

(** ** Further properties of release and of registration *)

Section RegistryProperties.

Variable World : Type.
Variable elapse : World -> World.
Variable host : World -> Host.
Variable create : string -> World -> outcome (option (Server World)) * World.
Variable emit : string -> World -> option exn * World.
Variable format_exc : exn -> string.
Variable call_get_name : Server World -> World -> option exn * World.

Lemma release_raises (server : Server World) (p : Process World) e :
  fst (release host create emit format_exc server p) = Raise e ->
  is_Exception e = false.
Proof.
  unfold release.
  destruct (cleanup server (world (state p))) as [[e0|] w]; [|discriminate].
  destruct (is_Exception e0) eqn:E0; [|intros [= <-]; exact E0].
  destruct (get_instance host create _) as [ram p1].
  destruct (emit _ (world (state p1))) as [[e1|] w1]; [|discriminate].
  destruct (is_Exception e1) eqn:E1; [discriminate|].
  intros [= <-]. exact E1.
Qed.

Lemma release_finishes (server : Server World) (p : Process World) :
  fst (release host create emit format_exc server p) <> OutOfFuel.
Proof.
  unfold release.
  destruct (cleanup server (world (state p))) as [[e0|] w]; [|discriminate].
  destruct (is_Exception e0); [|discriminate].
  destruct (get_instance host create _) as [ram p1].
  destruct (emit _ (world (state p1))) as [[e1|] w1]; [|discriminate].
  destruct (is_Exception e1); discriminate.
Qed.


Lemma nth_error_list_insert {A : Type} (l : list A) (i : nat) (x : A) :
  (i <= List.length l)%nat ->
  let l' := (firstn i l ++ x :: skipn i l)%list in
  List.length l' = S (List.length l)
  /\ nth_error l' i = Some x
  /\ (forall j, (j < i)%nat -> nth_error l' j = nth_error l j)
  /\ (forall j, (i <= j)%nat -> nth_error l' (S j) = nth_error l j).
Proof.
  intros Hi l'. subst l'.
  assert (Hlen : List.length (firstn i l) = i)
    by (rewrite length_firstn; lia).
  repeat split.
  - rewrite length_app. simpl. rewrite Hlen, length_skipn. lia.
  - rewrite nth_error_app2 by lia. rewrite Hlen, Nat.sub_diag. reflexivity.
  - intros j Hj. rewrite nth_error_app1 by lia.
    rewrite nth_error_firstn.
    destruct (Nat.ltb_spec j i); [reflexivity | lia].
  - intros j Hj. rewrite nth_error_app2 by lia. rewrite Hlen.
    replace (S j - i)%nat with (S (j - i)) by lia. simpl.
    rewrite nth_error_skipn. f_equal. lia.
Qed.

(** The position at which [list.insert(index, x)] puts [x] in a list of
    length [n], for an index that fits the index type. *)
Lemma list_insert_position {A : Type} (maxsize : Z) (l : list A) (index : Z)
  (x : A) :
  - maxsize - 1 <= index <= maxsize ->
  let n := Z.of_nat (List.length l) in
  let i := Z.to_nat (if index <? 0 then Z.max 0 (index + n)
                     else Z.min index n) in
  (i <= List.length l)%nat
  /\ list_insert maxsize l index x
     = Some (firstn i l ++ x :: skipn i l)%list.
Proof.
  intros Hrange. cbv zeta. split.
  - destruct (Z.ltb_spec index 0); lia.
  - unfold list_insert.
    replace (index <? - maxsize - 1) with false
      by (symmetry; apply Z.ltb_ge; lia).
    replace (maxsize <? index) with false
      by (symmetry; apply Z.ltb_ge; lia).
    reflexivity.
Qed.

Lemma list_insert_overflow {A : Type} (maxsize : Z) (l : list A) (index : Z)
  (x : A) :
  index < - maxsize - 1 \/ maxsize < index ->
  list_insert maxsize l index x = None.
Proof.
  intros H. unfold list_insert.
  destruct (Z.ltb_spec index (- maxsize - 1)); [reflexivity|].
  destruct (Z.ltb_spec maxsize index); [reflexivity | lia].
Qed.

Lemma get_instance_state (p : Process World) :
  state (snd (get_instance host create p)) = state p.
Proof. unfold get_instance. destruct (_RAM p); reflexivity. Qed.

(** X13: with an index that fits the machine's index type (from
    -sys.maxsize - 1 to sys.maxsize) [insert_allocator] adds exactly one
    allocator and keeps the allocators already registered in their order:
    the new one lands at [index] when 0 <= index <= n, at n + index when
    -n <= index < 0, first when index < -n and last when index > n (n being
    the number of allocators registered before); those before that position
    keep their index and the others move up by one.  With an index outside
    that range it raises OverflowError and registers nothing. *)
Theorem insert_allocator_keeps_order index a (p : Process World) :
  let old := _allocators (fst (get_instance host create p)) in
  let maxsize := sys_maxsize (host (world (state p))) in
  let n := Z.of_nat (List.length old) in
  let i := Z.to_nat (if index <? 0 then Z.max 0 (index + n)
                     else Z.min index n) in
  (- maxsize - 1 <= index <= maxsize ->
   exists ram',
     fst (insert_allocator host create index a p) = Return tt
     /\ _RAM (snd (insert_allocator host create index a p)) = Some ram'
     /\ List.length (_allocators ram') = S (List.length old)
     /\ nth_error (_allocators ram') i = Some a
     /\ (forall j, (j < i)%nat ->
           nth_error (_allocators ram') j = nth_error old j)
     /\ (forall j, (i <= j)%nat ->
           nth_error (_allocators ram') (S j) = nth_error old j))
  /\ (index < - maxsize - 1 \/ maxsize < index ->
      insert_allocator host create index a p
      = (Raise (OtherError "OverflowError"),
         snd (get_instance host create p))).
Proof.
  cbv zeta. unfold insert_allocator.
  pose proof (get_instance_state p) as Hst.
  destruct (get_instance host create p) as [ram p1]. cbn [fst snd] in *.
  rewrite Hst. split.
  - intros Hrange.
    destruct (list_insert_position _ (_allocators ram) index a Hrange)
      as [Hi ->].
    eexists. cbn [fst snd _RAM _allocators set_allocators].
    split; [reflexivity|]. split; [reflexivity|].
    exact (nth_error_list_insert (_allocators ram) _ a Hi).
  - intros Hover.
    now rewrite (list_insert_overflow _ (_allocators ram) index a Hover).
Qed.

(** X14: with an index at or beyond the end of the list (and not above
    sys.maxsize) [insert_allocator] registers the allocator exactly as
    [add_allocator] does, and with an index at or before minus the length
    of the list (and not below -sys.maxsize - 1) it registers it first. *)
Theorem insert_allocator_out_of_range index a (p : Process World) :
  let old := _allocators (fst (get_instance host create p)) in
  let maxsize := sys_maxsize (host (world (state p))) in
  (Z.of_nat (List.length old) <= index <= maxsize ->
   insert_allocator host create index a p
   = (Return tt, add_allocator host create a p))
  /\ (- maxsize - 1 <= index <= - Z.of_nat (List.length old) ->
      maxsize >= 0 ->
      exists ram',
        fst (insert_allocator host create index a p) = Return tt
        /\ _RAM (snd (insert_allocator host create index a p)) = Some ram'
        /\ _allocators ram' = a :: old).
Proof.
  cbv zeta. unfold insert_allocator, add_allocator.
  pose proof (get_instance_state p) as Hst.
  destruct (get_instance host create p) as [ram p1]. cbn [fst snd] in *.
  rewrite Hst. split.
  - intros H.
    destruct (list_insert_position (sys_maxsize (host (world (state p))))
                (_allocators ram) index a ltac:(lia)) as [_ ->].
    replace (index <? 0) with false by (symmetry; apply Z.ltb_ge; lia).
    rewrite Z.min_r by lia. rewrite Nat2Z.id, firstn_all, skipn_all.
    reflexivity.
  - intros H Hmax.
    destruct (list_insert_position (sys_maxsize (host (world (state p))))
                (_allocators ram) index a ltac:(lia)) as [_ ->].
    eexists. cbn [fst snd _RAM _allocators set_allocators].
    split; [reflexivity|]. split; [reflexivity|].
    destruct (Z.ltb_spec index 0) as [Hneg|Hpos].
    + rewrite Z.max_l by lia. reflexivity.
    + assert (_allocators ram = []) as ->
        by (destruct (_allocators ram); [reflexivity | simpl in H; lia]).
      rewrite firstn_nil, skipn_nil. reflexivity.
Qed.

Lemma list_insert_keeps {A : Type} (maxsize : Z) (l l' : list A) index x y :
  list_insert maxsize l index x = Some l' -> In y l -> In y l'.
Proof.
  unfold list_insert.
  destruct ((index <? - maxsize - 1) || (maxsize <? index)); [discriminate|].
  intros [= <-] Hin.
  rewrite <- (firstn_skipn
                (Z.to_nat (if index <? 0
                           then Z.max 0 (index + Z.of_nat (List.length l))
                           else Z.min index (Z.of_nat (List.length l)))) l)
    in Hin.
  apply in_app_or in Hin. apply in_or_app. simpl. tauto.
Qed.

Lemma get_instance_same (q q' : Process World) :
  _RAM q = _RAM q' ->
  fst (get_instance host create q) = fst (get_instance host create q').
Proof. unfold get_instance. intros ->. destruct (_RAM q'); reflexivity. Qed.

Lemma get_instance_again (q : Process World) :
  fst (get_instance host create (snd (get_instance host create q)))
  = fst (get_instance host create q).
Proof.
  unfold get_instance. destruct (_RAM q) eqn:E; cbn [fst snd].
  - rewrite E. reflexivity.
  - reflexivity.
Qed.

Lemma release_keeps_manager (server : Server World) (p : Process World) :
  fst (get_instance host create
         (snd (release host create emit format_exc server p)))
  = fst (get_instance host create p).
Proof.
  unfold release.
  destruct (cleanup server (world (state p))) as [[e|] w]; cbn [snd];
    [|now apply get_instance_same].
  destruct (is_Exception e); cbn [snd]; [|now apply get_instance_same].
  set (p0 := {| _RAM := _RAM p; state := set_world w (state p) |}).
  assert (H0 : fst (get_instance host create p0)
               = fst (get_instance host create p))
    by now apply get_instance_same.
  pose proof (get_instance_again p0) as H1. rewrite H0 in H1.
  destruct (get_instance host create p0) as [ram p1]. cbn [fst snd] in *.
  destruct (emit _ (world (state p1))) as [[e1|] w1]; cbn [snd];
    [destruct (is_Exception e1); cbn [snd]|];
    (etransitivity; [|exact H1]); now apply get_instance_same.
Qed.

Lemma run_call_keeps_registered fuel c (p : Process World) a :
  In a (_allocators (fst (get_instance host create p))) ->
  In a (_allocators
          (fst (get_instance host create
                  (snd (run_call elapse host create emit format_exc fuel c
                          p))))).
Proof.
  intros Hp.
  destruct c as [b|i b|desc|server]; cbn [run_call].
  - unfold add_allocator. destruct (get_instance host create p) as [ram p1].
    cbn [fst snd] in *. unfold get_instance. cbn [_RAM fst _allocators
      set_allocators]. apply in_or_app. auto.
  - unfold insert_allocator. pose proof (get_instance_again p) as Hinst.
    destruct (get_instance host create p) as [ram p1]. cbn [fst snd] in *.
    destruct (list_insert _ (_allocators ram) i b) as [allocators|] eqn:E;
      cbn [snd]; [|rewrite Hinst; exact Hp].
    unfold get_instance. cbn [_RAM fst _allocators set_allocators].
    exact (list_insert_keeps _ _ _ _ _ _ E Hp).
  - unfold allocate, _allocate.
    destruct (flush_handlers (host (world (state p)))) as [e|];
      [exact Hp|].
    destruct (get_instance host create p) as [ram p1]. cbn [fst snd] in *.
    destruct (_allocate_loop elapse module_globals fuel ram desc 0 (-1)
                (state p1)) as [[o ram1] st'] eqn:E.
    apply allocate_loop_names in E. destruct E as (_ & _ & _ & E).
    unfold get_instance.
    destruct o; cbn [snd fst _RAM]; rewrite E; exact Hp.
  - rewrite release_keeps_manager. exact Hp.
Qed.

(** X15: no call of the manager removes an allocator.  An allocator that is
    registered in the manager of a process (the manager that exists, or the
    one [get_instance] would create, which holds the default local
    allocator) is still registered after any sequence of calls
    ([add_allocator], [insert_allocator], [allocate], [release]), whether
    they succeed or raise. *)
Theorem registered_allocators_stay fuel calls (p : Process World) a :
  In a (_allocators (fst (get_instance host create p))) ->
  In a (_allocators
          (fst (get_instance host create
                  (run_calls elapse host create emit format_exc fuel calls
                     p)))).
Proof.
  revert p.
  induction calls as [|c rest IH]; intros p Hp; simpl; [exact Hp|].
  pose proof (run_call_keeps_registered fuel c p a Hp) as H1.
  destruct (run_call elapse host create emit format_exc fuel c p) as [o p1].
  cbn [snd] in H1. destruct o; [apply IH; exact H1 .. | exact H1].
Qed.

End RegistryProperties.

(** ** Properties of ClusterAllocator *)

Lemma str_index_app (c : ascii) (s1 s2 : string) :
  str_index c s1 = None ->
  str_index c (s1 ++ s2)
  = option_map (Nat.add (String.length s1)) (str_index c s2).
Proof.
  induction s1 as [|d s1 IH]; simpl.
  - intros _. destruct (str_index c s2); reflexivity.
  - destruct (Ascii.eqb d c); [discriminate|].
    destruct (str_index c s1) eqn:E; [discriminate|]. intros _.
    rewrite (IH eq_refl). destruct (str_index c s2); reflexivity.
Qed.

Lemma substring_skip (s1 s2 : string) (m : nat) :
  substring (String.length s1) m (s1 ++ s2) = substring 0 m s2.
Proof. induction s1 as [|d s1 IH]; simpl; [reflexivity | exact IH]. Qed.

Lemma substring_prefix (s t : string) :
  substring 0 (String.length s) (s ++ t) = s.
Proof.
  induction s as [|d s IH]; simpl.
  - destruct t; reflexivity.
  - now rewrite IH.
Qed.

Lemma substring_empty (s : string) (n : nat) : substring n 0 s = "".
Proof.
  revert n. induction s as [|d s IH]; intros [|n]; simpl; auto.
Qed.

(** X16: from a manager name of the form '<prefix>-<address>:<rest>', such
    as 'Host-10.0.0.7:5000', [deploy] takes the address between the first
    '-' and the first ':' as the key of its cache, provided the prefix has
    neither character and the address has no ':'. *)
Theorem host_ip_is_the_address (prefix address rest : string) :
  str_index "-" prefix = None ->
  str_index ":" prefix = None ->
  str_index ":" address = None ->
  host_ip_of (Some (prefix ++ "-" ++ address ++ ":" ++ rest))
  = Return address.
Proof.
  intros Hd Hc Ha. unfold host_ip_of.
  rewrite (str_index_app "-" prefix _ Hd), (str_index_app ":" prefix _ Hc).
  cbn [append str_index Ascii.eqb Bool.eqb option_map].
  rewrite (str_index_app ":" address _ Ha).
  cbn [str_index Ascii.eqb Bool.eqb option_map]. unfold slice.
  replace (String.length prefix + S (String.length address + 0)
           - (String.length prefix + 0 + 1))%nat
    with (String.length address) by lia.
  replace (String.length prefix + 0 + 1)%nat
    with (String.length (prefix ++ "-")).
  - change (prefix ++ String "-" (address ++ String ":" rest))
      with (prefix ++ ("-" ++ (address ++ String ":" rest))).
    assert (Hassoc : forall a b c : string, a ++ (b ++ c) = (a ++ b) ++ c).
    { intros a b c. induction a as [|d a IH]; simpl; [reflexivity|].
      now rewrite IH. }
    rewrite Hassoc, substring_skip. now rewrite substring_prefix.
  - clear. induction prefix as [|d p IH]; simpl; [reflexivity|].
    rewrite IH. lia.
Qed.


Lemma dict_get_set_same {A : Type} (d : list (string * A)) k v :
  dict_get (dict_set d k v) k = Some v.
Proof.
  induction d as [|[k0 v0] d IH]; simpl.
  - now rewrite String.eqb_refl.
  - destruct (String.eqb k0 k) eqn:E; simpl; rewrite E; auto.
Qed.

Lemma dict_set_absent {A : Type} (d : list (string * A)) k v :
  dict_get d k = None -> dict_set d k v = (d ++ [(k, v)])%list.
Proof.
  induction d as [|[k0 v0] d IH]; simpl; [reflexivity|].
  destruct (String.eqb k0 k); [discriminate|]. intros H. now rewrite IH.
Qed.

Lemma dict_get_absent {A : Type} (d : list (string * A)) k :
  dict_get d k = None <-> ~ In k (dict_keys d).
Proof.
  induction d as [|[k0 v0] d IH]; simpl; [tauto|].
  destruct (String.eqb_spec k0 k) as [-> | Hne].
  - split; [discriminate | intros H; exfalso; auto].
  - rewrite IH. tauto.
Qed.

Lemma dict_get_app {A : Type} (d d' : list (string * A)) k v :
  dict_get d k = Some v -> dict_get (d ++ d') k = Some v.
Proof.
  induction d as [|[k0 v0] d IH]; simpl; [discriminate|].
  destruct (String.eqb k0 k); auto.
Qed.

Section ClusterProperties.

Variable World : Type.

(** X18: [deploy] forwards to the allocator cached for the host of the
    manager it is given; it asks the manager for a new allocator only when
    that host is not in the cache yet, and then caches it under the host's
    address. *)
Theorem cluster_deploy_creates_allocator_once (self : ClusterAllocator World)
  name_ desc w manager w1 host_ip :
  get_host_manager self w = (manager, w1) ->
  host_ip_of (_name manager) = Return host_ip ->
  (forall a, dict_get (local_allocators self) host_ip = Some a ->
     ClusterAllocator_deploy self name_ desc w
     = (fst (deploy a name_ desc w1), self, snd (deploy a name_ desc w1)))
  /\ (dict_get (local_allocators self) host_ip = None ->
      forall a w2, new_LocalAllocator manager w1 = (a, w2) ->
        ClusterAllocator_deploy self name_ desc w
        = (fst (deploy a name_ desc w2),
           set_local_allocators self
             (local_allocators self ++ [(host_ip, a)])%list,
           snd (deploy a name_ desc w2))).
Proof.
  intros Hm Hip. unfold ClusterAllocator_deploy. rewrite Hm, Hip. split.
  - intros a Ha. rewrite Ha. rewrite Ha.
    destruct (deploy a name_ desc w1). reflexivity.
  - intros Hnone a w2 Hnew. rewrite Hnone, Hnew.
    cbn [local_allocators set_local_allocators].
    rewrite dict_get_set_same, (dict_set_absent _ _ _ Hnone).
    destruct (deploy a name_ desc w2). reflexivity.
Qed.

Lemma cluster_deploy_cache (self : ClusterAllocator World) name_ desc w :
  let self' := snd (fst (ClusterAllocator_deploy self name_ desc w)) in
  local_allocators self' = local_allocators self
  \/ exists k a,
       dict_get (local_allocators self) k = None
       /\ local_allocators self' = (local_allocators self ++ [(k, a)])%list.
Proof.
  cbv zeta. unfold ClusterAllocator_deploy.
  destruct (get_host_manager self w) as [manager w1].
  destruct (host_ip_of (_name manager)) as [ip|e|]; [|left; reflexivity..].
  destruct (dict_get (local_allocators self) ip) as [a|] eqn:E.
  - rewrite E. destruct (deploy a name_ desc w1). left. reflexivity.
  - destruct (new_LocalAllocator manager w1) as [a w2].
    cbn [local_allocators set_local_allocators].
    rewrite dict_get_set_same, (dict_set_absent _ _ _ E).
    destruct (deploy a name_ desc w2). right. exists ip, a. auto.
Qed.

(** X19: over any sequence of deploys the cache of a cluster allocator holds
    at most one allocator per address, never replaces or drops an allocator
    it holds, and grows by at most one entry per deploy. *)
Theorem cluster_cache_one_allocator_per_host (self : ClusterAllocator World)
  requests w :
  NoDup (dict_keys (local_allocators self)) ->
  let self' := fst (cluster_deploys self requests w) in
  NoDup (dict_keys (local_allocators self'))
  /\ (forall k a, dict_get (local_allocators self) k = Some a ->
        dict_get (local_allocators self') k = Some a)
  /\ (List.length (local_allocators self')
      <= List.length (local_allocators self) + List.length requests)%nat.
Proof.
  cbv zeta. revert self w.
  induction requests as [|[name_ desc] rest IH]; intros self w Hnd; simpl.
  - repeat split; auto. lia.
  - pose proof (cluster_deploy_cache self name_ desc w) as Hc.
    destruct (ClusterAllocator_deploy self name_ desc w) as [[r self1] w1].
    simpl in Hc.
    assert (H1 : NoDup (dict_keys (local_allocators self1))
                 /\ (forall k a, dict_get (local_allocators self) k = Some a ->
                       dict_get (local_allocators self1) k = Some a)
                 /\ (List.length (local_allocators self1)
                     <= S (List.length (local_allocators self)))%nat).
    { destruct Hc as [-> | (k & a & Hk & ->)].
      - repeat split; auto.
      - repeat split.
        + unfold dict_keys. rewrite map_app. simpl.
          apply NoDup_app; [exact Hnd | repeat constructor; auto |].
          intros x Hx [<- | []]. apply dict_get_absent in Hk. auto.
        + intros k0 a0. apply dict_get_app.
        + rewrite length_app. simpl. lia. }
    destruct H1 as (Hnd1 & Hkeep1 & Hlen1).
    destruct (IH self1 w1 Hnd1) as (Hnd' & Hkeep' & Hlen').
    repeat split; [exact Hnd' | auto | lia].
Qed.

End ClusterProperties.

(** X20: the construction of a cluster allocator makes one host per
    machine, in order, each with one slot and with the machine's 'hostname'
    and 'python'; when some machine has no 'hostname' or no 'python' it
    raises KeyError instead. *)
Theorem cluster_hosts_need_hostname_and_python
  (machines : list (list (string * string))) :
  (forall hosts,
     cluster_hosts machines = Return hosts
     <-> Forall2 (fun machine h =>
                    dict_get machine "hostname" = Some (hostname h)
                    /\ dict_get machine "python" = Some (python h)
                    /\ slots h = 1) machines hosts)
  /\ ((exists machine,
         In machine machines
         /\ (dict_get machine "hostname" = None
             \/ dict_get machine "python" = None)) ->
      cluster_hosts machines = Raise (OtherError "KeyError")).
Proof.
  split.
  - induction machines as [|machine rest IH]; intros hosts; simpl.
    + split; [intros [= <-]; constructor | intros H; inversion H; reflexivity].
    + destruct (dict_get machine "hostname") as [h|] eqn:Eh;
        [|split; [discriminate|];
          intros H; inversion H as [|? ? ? ? (Hh & _) _]; congruence].
      destruct (dict_get machine "python") as [py|] eqn:Ep;
        [|split; [discriminate|];
          intros H; inversion H as [|? ? ? ? (_ & Hp & _) _]; congruence].
      destruct (cluster_hosts rest) as [hosts'|e|].
      * split.
        -- intros [= <-]. constructor; [simpl; auto | now apply IH].
        -- intros H. inversion H as [|m h0 ms hs (Hh & Hp & Hs) Hrest];
             subst. apply IH in Hrest. injection Hrest as <-.
           destruct h0 as [hn sl pyn]. simpl in *. congruence.
      * split; [discriminate|]. intros H. inversion H as [|m h0 ms hs _ Hrest];
          subst. apply IH in Hrest. discriminate.
      * split; [discriminate|]. intros H. inversion H as [|m h0 ms hs _ Hrest];
          subst. apply IH in Hrest. discriminate.
  - induction machines as [|machine rest IH]; intros (m & Hin & Hm);
      [contradiction|]. simpl.
    destruct (dict_get machine "hostname") as [h|] eqn:Eh; [|reflexivity].
    destruct (dict_get machine "python") as [py|] eqn:Ep; [|reflexivity].
    destruct Hin as [-> | Hin].
    + destruct Hm; congruence.
    + rewrite IH; [reflexivity|]. exists m. auto.
Qed.

(** ** The manager as it is created: the default local allocator alone *)

Section LocalOnly.

Variable World : Type.
Variable elapse : World -> World.
Variable host : World -> Host.
Variable create : string -> World -> outcome (option (Server World)) * World.

Lemma local_pass (self : LocalAllocator) (ram : RAM World) desc st
  score info :
  _allocators ram = [local_allocator host create self] ->
  LocalAllocator_rate_resource self (host (world st)) desc
  = Return (score, info) ->
  _get_scores ram desc st
  = (Return (if adopts (-2) score
             then (score, info, Some (local_allocator host create self))
             else (-2, None, None)),
     {| world := world st;
        trace := ((trace st ++ [Call_get_scores])
                  ++ [Call_rate_resource "LocalAllocator"])%list |}).
Proof.
  intros Hl E. unfold _get_scores. rewrite Hl.
  cbn [_get_scores_loop local_allocator rate_resource world record name].
  rewrite E. destruct (adopts (-2) score); reflexivity.
Qed.

Lemma local_pass_raises (self : LocalAllocator) (ram : RAM World) desc st e :
  _allocators ram = [local_allocator host create self] ->
  LocalAllocator_rate_resource self (host (world st)) desc = Raise e ->
  _get_scores ram desc st
  = (Raise e,
     {| world := world st;
        trace := ((trace st ++ [Call_get_scores])
                  ++ [Call_rate_resource "LocalAllocator"])%list |}).
Proof.
  intros Hl E. unfold _get_scores. rewrite Hl.
  cbn [_get_scores_loop local_allocator rate_resource world record name].
  rewrite E. reflexivity.
Qed.

Lemma allocate_step_raises globals fuel (self : RAM World) desc st e st1 :
  _get_scores self desc st = (Raise e, st1) ->
  _allocate elapse globals (S fuel) self desc st = (Raise e, self, st1).
Proof.
  intros E. unfold _allocate. simpl. rewrite E. reflexivity.
Qed.

Lemma allocate_step_unsupported globals fuel (self : RAM World) desc st
  best_criteria best_allocator st1 :
  _get_scores self desc st
  = (Return (-2, best_criteria, best_allocator), st1) ->
  _allocate elapse globals (S fuel) self desc st
  = (Return (Tuple None None), self, st1).
Proof.
  intros E. unfold _allocate. simpl. rewrite E. reflexivity.
Qed.

Lemma allocate_step_deployed globals fuel (self : RAM World) desc st
  best_score best_criteria a st1 server w :
  _get_scores self desc st
  = (Return (best_score, best_criteria, Some a), st1) ->
  0 <= best_score ->
  deploy a ("Sim-" ++ percent_d (_allocations self + 1)) desc (world st1)
  = (Return (Some server), w) ->
  _allocate elapse globals (S fuel) self desc st
  = (Return (Tuple (Some server)
               (Some {| info_name := get_name server;
                        info_pid := get_pid server;
                        info_host := get_host server |})),
     set_allocations self (_allocations self + 1),
     set_world w
       (record (Call_deploy (name a)
                  ("Sim-" ++ percent_d (_allocations self + 1))) st1)).
Proof.
  intros E Hbs D. unfold _allocate. simpl. rewrite E.
  replace (best_score >=? 0) with true by (symmetry; apply Z.geb_le; lia).
  simpl in D. rewrite D. reflexivity.
Qed.


End LocalOnly.

(** ** The further properties on concrete inputs *)

Import ClusterScenario Faults.


Lemma criteria_name_first_failing_item_witness :
  LocalAllocator_rate_resource LocalAllocator_default idle
    [("localhost", VBool true); ("n_cpus", VInt 8); ("bogus", VInt 1)]
  = Return (-2, Some [("n_cpus", CValue (VInt 8))]).
Proof.
  apply (criteria_name_first_failing_item LocalAllocator_default idle
           [("localhost", VBool true)] [("bogus", VInt 1)] "n_cpus" (VInt 8)).
  - reflexivity.
  - reflexivity.
  - intros H. discriminate H.
  - intros H. discriminate H.
Defined.

Lemma orphan_modules_reports_missing_witness :
  exists m e,
    In m ["zlib"; ""; "os"] /\ import_module bare m = Some e
    /\ e <> ImportError
    /\ check_orphan_modules bare (VStrs ["zlib"; ""; "os"]) = Raise e.
Proof.
  apply (proj2 (proj2 (orphan_modules_reports_missing bare
                         ["zlib"; ""; "os"]))).
  exists "", (OtherError "ValueError").
  split; [simpl; auto|]. split; [reflexivity | discriminate].
Defined.

Lemma no_allocator_iff_all_scores_below_minus_1_witness :
  let self := manager [scoring "A" (-2); scoring "B" (-3)] in
  rate_all (_allocators self) [] idle = (Return [(-2, None); (-3, None)], idle)
  /\ exists best_score best_criteria best_allocator st',
       _get_scores self [] (start idle)
       = (Return (best_score, best_criteria, best_allocator), st')
       /\ (best_allocator = None
           <-> Forall (fun r : rating => fst r < -1)
                 [(-2, None); (-3, None)])
       /\ (best_allocator = None -> best_score = -2 /\ best_criteria = None).
Proof.
  cbv zeta. split; [reflexivity|].
  apply (no_allocator_iff_all_scores_below_minus_1 Host
           (manager [scoring "A" (-2); scoring "B" (-3)]) [] (start idle)
           [(-2, None); (-3, None)] idle).
  reflexivity.
Defined.

Lemma selected_allocator_returned_the_best_witness :
  let self := manager [scoring "A" 0; scoring "B" 5; scoring "C" 0] in
  exists i,
    nth_error (_allocators self) i = Some (scoring "C" 0)
    /\ nth_error [(0, None); (5, None); (0, None)] i
       = Some (0, @None criteria).
Proof.
  cbv zeta.
  apply (selected_allocator_returned_the_best Host
           (manager [scoring "A" 0; scoring "B" 5; scoring "C" 0]) []
           (start idle) [(0, None); (5, None); (0, None)] idle 0 None
           (scoring "C" 0)
           (snd (_get_scores
                   (manager [scoring "A" 0; scoring "B" 5; scoring "C" 0]) []
                   (start idle)))).
  - reflexivity.
  - reflexivity.
Defined.

Lemma first_usable_wins_without_estimates_witness :
  let self := manager [scoring "A" (-2); scoring "B" (-1); scoring "C" 0] in
  exists st',
    _get_scores self [] (start idle)
    = (Return (-1, None, Some (scoring "B" (-1))), st')
    /\ world st' = idle.
Proof.
  cbv zeta.
  apply (first_usable_wins_without_estimates Host
           (manager [scoring "A" (-2); scoring "B" (-1); scoring "C" 0]) []
           (start idle) [(-2, None); (-1, None); (0, None)] idle 1%nat).
  - reflexivity.
  - repeat constructor; simpl; lia.
  - reflexivity.
  - reflexivity.
  - lia.
  - intros [|j] r Hj Hn; [|lia]. injection Hn as <-. simpl. lia.
Defined.

Lemma rating_exception_aborts_allocate_witness :
  let self := {| _allocations := 0; _allocators := [tiring];
                 _alloc_index := 0 |} in
  let self1 := set_allocations self 1 in
  let st1 := {| world := 1%nat;
                trace := [Call_get_scores; Call_rate_resource "tiring";
                          Call_deploy "tiring" "Sim-1";
                          Log_warning "deployment failed, retrying."] |} in
  _allocate (fun w => w) module_globals 2 self []
    {| world := 0%nat; trace := [] |}
  = _allocate_loop (fun w => w) module_globals 1 self1 [] 1 (-1) st1
  /\ exists st',
       _allocate_loop (fun w => w) module_globals 1 self1 [] 1 (-1) st1
       = (Raise (OtherError "RuntimeError"), self1, st')
       /\ world st' = 1%nat
       /\ count is_deploy (trace st') = count is_deploy (trace st1)
       /\ count is_sleep (trace st') = count is_sleep (trace st1).
Proof.
  cbv zeta. split; [reflexivity|].
  apply (rating_exception_aborts_allocate nat (fun w => w) module_globals 0
           (set_allocations
              {| _allocations := 0; _allocators := [tiring];
                 _alloc_index := 0 |} 1)
           [] 1
           {| world := 1%nat;
              trace := [Call_get_scores; Call_rate_resource "tiring";
                        Call_deploy "tiring" "Sim-1";
                        Log_warning "deployment failed, retrying."] |}
           (OtherError "RuntimeError") 1%nat).
  reflexivity.
Defined.

Lemma deploy_exception_propagates_witness :
  let self := {| _allocations := 0; _allocators := [brittle];
                 _alloc_index := 0 |} in
  let self1 := set_allocations self 1 in
  let st1 := {| world := 1%nat;
                trace := [Call_get_scores; Call_rate_resource "brittle";
                          Call_deploy "brittle" "Sim-1";
                          Log_warning "deployment failed, retrying."] |} in
  _allocate (fun w => w) module_globals 2 self []
    {| world := 0%nat; trace := [] |}
  = _allocate_loop (fun w => w) module_globals 1 self1 [] 1 (-1) st1
  /\ exists self' st',
       _allocate_loop (fun w => w) module_globals 1 self1 [] 1 (-1) st1
       = (Raise (OtherError "RuntimeError"), self', st')
       /\ _allocations self' = _allocations self1 + 1
       /\ _allocators self' = _allocators self1
       /\ trace st'
          = (trace st1 ++ [Call_get_scores; Call_rate_resource "brittle"]
             ++ [Call_deploy "brittle" "Sim-2"])%list
       /\ world st' = 2%nat.
Proof.
  cbv zeta. split; [reflexivity|].
  apply (deploy_exception_propagates nat (fun w => w) module_globals 0
           (set_allocations
              {| _allocations := 0; _allocators := [brittle];
                 _alloc_index := 0 |} 1)
           [] 1
           {| world := 1%nat;
              trace := [Call_get_scores; Call_rate_resource "brittle";
                        Call_deploy "brittle" "Sim-1";
                        Log_warning "deployment failed, retrying."] |}
           0 None brittle
           {| world := 1%nat;
              trace := [Call_get_scores; Call_rate_resource "brittle";
                        Call_deploy "brittle" "Sim-1";
                        Log_warning "deployment failed, retrying.";
                        Call_get_scores; Call_rate_resource "brittle"] |}
           (OtherError "RuntimeError") 2%nat).
  - reflexivity.
  - lia.
  - reflexivity.
Defined.

Lemma allocate_returns_a_pair_witness :
  let self := manager [scoring "A" (-2)] in
  let st' := {| world := idle;
                trace := [Call_get_scores; Call_rate_resource "A"] |} in
  _allocate stay module_globals 1 self [] (start idle)
  = (Return (Tuple None None), self, st')
  /\ (@Tuple Host None None = Tuple None None
      \/ exists server : Server Host,
           Tuple None None
           = Tuple (Some server)
               (Some {| info_name := get_name server;
                        info_pid := get_pid server;
                        info_host := get_host server |})).
Proof.
  cbv zeta. split; [reflexivity|].
  apply (allocate_returns_a_pair Host stay module_globals 1
           (manager [scoring "A" (-2)]) [] (start idle) (Tuple None None)
           (manager [scoring "A" (-2)])
           {| world := idle;
              trace := [Call_get_scores; Call_rate_resource "A"] |}).
  reflexivity.
Defined.

Lemma allocate_comes_back_witness :
  fst (fst (_allocate stay module_globals 11 (manager [scoring "A" 0]) []
              (start idle)))
  <> OutOfFuel.
Proof.
  apply (allocate_comes_back Host stay 11 (manager [scoring "A" 0]) []
           (start idle)).
  - constructor; [|constructor]. intros w. split; [|intros n];
      simpl; intros H; discriminate H.
  - lia.
Defined.


Lemma insert_allocator_keeps_order_witness :
  let p := add_allocator this_host spawn (scoring "A" 0) (fresh idle) in
  insert_allocator this_host spawn (2 ^ 63) (scoring "B" 0) p
  = (Raise (OtherError "OverflowError"), p).
Proof.
  cbv zeta.
  apply (proj2 (insert_allocator_keeps_order Host this_host spawn (2 ^ 63)
                  (scoring "B" 0)
                  (add_allocator this_host spawn (scoring "A" 0)
                     (fresh idle)))).
  right. reflexivity.
Defined.

Lemma insert_allocator_out_of_range_witness :
  insert_allocator this_host spawn 7 (scoring "A" 0) (fresh idle)
  = (Return tt, add_allocator this_host spawn (scoring "A" 0) (fresh idle)).
Proof.
  apply (proj1 (insert_allocator_out_of_range Host this_host spawn 7
                  (scoring "A" 0) (fresh idle))).
  split; [simpl; lia | discriminate].
Defined.

Lemma registered_allocators_stay_witness :
  let p := add_allocator this_host spawn (scoring "A" 1) (fresh idle) in
  let calls := [Insert 0 (scoring "B" 2); Insert (2 ^ 63) (scoring "C" 3);
                Release stuck_worker] in
  In (scoring "A" 1) (_allocators (fst (get_instance this_host spawn p)))
  /\ In (scoring "A" 1)
        (_allocators
           (fst (get_instance this_host spawn
                   (run_calls stay this_host spawn emit_fails exc_text 11
                      calls p)))).
Proof.
  cbv zeta.
  assert (H : In (scoring "A" 1)
                (_allocators
                   (fst (get_instance this_host spawn
                           (add_allocator this_host spawn (scoring "A" 1)
                              (fresh idle))))))
    by (right; left; reflexivity).
  split; [exact H|].
  apply (registered_allocators_stay Host stay this_host spawn emit_fails
           exc_text 11
           [Insert 0 (scoring "B" 2); Insert (2 ^ 63) (scoring "C" 3);
            Release stuck_worker]
           (add_allocator this_host spawn (scoring "A" 1) (fresh idle))
           (scoring "A" 1) H).
Defined.

Lemma host_ip_is_the_address_witness :
  host_ip_of (Some "Host-10.0.0.7:5000") = Return "10.0.0.7".
Proof.
  apply (host_ip_is_the_address "Host" "10.0.0.7" "5000"); reflexivity.
Defined.


Lemma cluster_deploy_creates_allocator_once_witness :
  let self := cluster (Some "Host-10.0.0.7:5000") in
  ClusterAllocator_deploy self "Sim-1" [] idle
  = (Return (Some (worker "Sim-1")),
     set_local_allocators self [("10.0.0.7", remote)], idle).
Proof.
  cbv zeta.
  apply (proj2 (cluster_deploy_creates_allocator_once Host
                  (cluster (Some "Host-10.0.0.7:5000")) "Sim-1" [] idle
                  (manager_of (Some "Host-10.0.0.7:5000")) idle "10.0.0.7"
                  eq_refl eq_refl) eq_refl remote idle eq_refl).
Defined.

Lemma cluster_cache_one_allocator_per_host_witness :
  let self := cluster (Some "Host-10.0.0.7:5000") in
  let self' := fst (cluster_deploys self [("Sim-1", []); ("Sim-2", [])] idle) in
  NoDup (dict_keys (local_allocators self))
  /\ NoDup (dict_keys (local_allocators self'))
  /\ (List.length (local_allocators self') <= 0 + 2)%nat.
Proof.
  cbv zeta. split; [constructor|].
  destruct (cluster_cache_one_allocator_per_host Host
              (cluster (Some "Host-10.0.0.7:5000"))
              [("Sim-1", []); ("Sim-2", [])] idle (NoDup_nil _))
    as (H1 & _ & H3).
  split; [exact H1 | exact H3].
Defined.

Lemma cluster_hosts_need_hostname_and_python_witness :
  cluster_hosts ([("hostname", "10.0.0.7")] :: machines)
  = Raise (OtherError "KeyError").
Proof.
  apply (proj2 (cluster_hosts_need_hostname_and_python
                  ([("hostname", "10.0.0.7")] :: machines))).
  exists [("hostname", "10.0.0.7")]. split; [left; reflexivity|].
  right. reflexivity.
Defined.

